(** * Parcelninja search tool: orchestration, flattening, projection, export

    A shallow embedding of [pninja_search_tool.py].  JSON-like payloads are
    a tagged inductive type, Python dictionaries are insertion-ordered
    association lists, the worker thread's queue is the list of messages it
    put, and the remote service, the clock and the stop flag are oracles
    indexed by the position of the term being processed. *)

From Stdlib Require Import String Ascii List ZArith Lia Bool Arith.
From Stdlib Require Import DecimalString ListSet Sorting.Sorted Permutation.
From Stdlib Require Import Structures.Orders Structures.OrdersEx.
Import ListNotations.
Local Open Scope string_scope.
Local Open Scope list_scope.

(** ** Values produced by [response.json()] *)

#[warnings="-register-all"]
Inductive value : Type :=
| VNull
| VBool (b : bool)
| VInt (n : Z)
| VFloat (bits : Z)      (* a binary64 datum, carried around unchanged *)
| VStr (s : string)
| VList (l : list value)
| VDict (d : list (string * value)).

(** A Python [dict] with string keys, in insertion order. *)
Definition dict := list (string * value).

Definition keys (d : dict) : list string := map fst d.

(** [d.get(k, default)] and [k in d]. *)
Fixpoint dict_find (d : dict) (k : string) : option value :=
  match d with
  | [] => None
  | (k', v) :: rest => if String.eqb k' k then Some v else dict_find rest k
  end.

Definition dict_get (d : dict) (k : string) (default : value) : value :=
  match dict_find d k with Some v => v | None => default end.

Definition dict_mem (d : dict) (k : string) : bool :=
  match dict_find d k with Some _ => true | None => false end.

(** [d[k] = v]: an existing key keeps its position, a new key goes last. *)
Fixpoint dict_set (d : dict) (k : string) (v : value) : dict :=
  match d with
  | [] => [(k, v)]
  | (k', v') :: rest =>
      if String.eqb k' k then (k', v) :: rest else (k', v') :: dict_set rest k v
  end.

(** [d.pop(k)] for a key that may be absent: the dictionary without it. *)
Fixpoint dict_remove (d : dict) (k : string) : dict :=
  match d with
  | [] => []
  | (k', v') :: rest =>
      if String.eqb k' k then rest else (k', v') :: dict_remove rest k
  end.

(** [dict(items)]: the pairs are stored one after the other. *)
Definition dict_of_items (items : list (string * value)) : dict :=
  fold_left (fun d kv => dict_set d (fst kv) (snd kv)) items [].

(** Python truthiness of a JSON value. *)
Definition truthy (v : value) : bool :=
  match v with
  | VNull => false
  | VBool b => b
  | VInt n => negb (Z.eqb n 0)
  | VFloat bits => negb (Z.eqb (Z.land bits (Z.ones 63)) 0)
  | VStr s => negb (String.eqb s "")
  | VList l => match l with [] => false | _ => true end
  | VDict d => match d with [] => false | _ => true end
  end.

Definition is_scalar (v : value) : bool :=
  match v with
  | VList _ | VDict _ => false
  | _ => true
  end.

Definition is_mapping (v : value) : bool :=
  match v with
  | VDict _ => true
  | _ => false
  end.

(** ** The result flattener *)

Section Flattener.

(** [json.dumps] belongs to the Python standard library; only the fact that
    it returns text is used. *)
Variable json_dumps : list value -> string.

Definition join_key (parent_key sep k : string) : string :=
  if String.eqb parent_key "" then k else parent_key ++ sep ++ k.

(** [_flatten_dict], by recursion on the nested payload.  The inner [fix]
    is the [for k, v in d.items()] loop filling [items]. *)
Fixpoint flatten_value (v : value) (parent_key sep : string) {struct v} : dict :=
  match v with
  | VDict d =>
      dict_of_items
        ((fix items (d : list (string * value)) : list (string * value) :=
            match d with
            | [] => []
            | (k, v') :: rest =>
                let new_key := join_key parent_key sep k in
                match v' with
                | VDict _ => flatten_value v' new_key sep ++ items rest
                | VList l => (new_key, VStr (json_dumps l)) :: items rest
                | _ => (new_key, v') :: items rest
                end
            end) d)
  | _ => []
  end.

Definition _flatten_dict (d : dict) (parent_key sep : string) : dict :=
  flatten_value (VDict d) parent_key sep.

(** The [items] list of one call, as a function of its own. *)
Fixpoint flatten_items (d : dict) (parent_key sep : string) : list (string * value) :=
  match d with
  | [] => []
  | (k, v) :: rest =>
      let new_key := join_key parent_key sep k in
      match v with
      | VDict d' => _flatten_dict d' new_key sep ++ flatten_items rest parent_key sep
      | VList l => (new_key, VStr (json_dumps l)) :: flatten_items rest parent_key sep
      | _ => (new_key, v) :: flatten_items rest parent_key sep
      end
  end.

Definition flatten (d : dict) : dict := _flatten_dict d "" ".".

End Flattener.

Local Open Scope string_scope.

(** ** Text helpers standing for Python's [str] methods

    A character is a code point below 256. *)

Definition nl : string := String (ascii_of_nat 10) "".

Definition str_of_nat (n : nat) : string := NilZero.string_of_uint (Nat.to_uint n).
Definition str_of_Z (n : Z) : string := NilZero.string_of_int (Z.to_int n).

(** [str.isspace] on one character. *)
Definition is_space (c : ascii) : bool :=
  let n := nat_of_ascii c in
  ((9 <=? n) && (n <=? 13) || (28 <=? n) && (n <=? 32)
   || (n =? 133) || (n =? 160))%nat.

Fixpoint lstrip (s : string) : string :=
  match s with
  | "" => ""
  | String c s' => if is_space c then lstrip s' else s
  end.

Fixpoint rstrip (s : string) : string :=
  match s with
  | "" => ""
  | String c s' =>
      let r := rstrip s' in
      if is_space c && String.eqb r "" then "" else String c r
  end.

Definition strip (s : string) : string := rstrip (lstrip s).

(** [str.lower] on one character. *)
Definition lower_char (c : ascii) : ascii :=
  let n := nat_of_ascii c in
  if ((65 <=? n) && (n <=? 90)
      || (192 <=? n) && (n <=? 222) && negb (n =? 215))%nat
  then ascii_of_nat (n + 32) else c.

Fixpoint lower (s : string) : string :=
  match s with
  | "" => ""
  | String c s' => String (lower_char c) (lower s')
  end.

(** [re.split(r'[,\n]', s)]. *)
Definition is_separator (c : ascii) : bool :=
  ((nat_of_ascii c =? 44) || (nat_of_ascii c =? 10))%nat.

Fixpoint re_split (s : string) : list string :=
  match s with
  | "" => [""]
  | String c s' =>
      if is_separator c then "" :: re_split s'
      else match re_split s' with
           | [] => [String c ""]
           | piece :: pieces => String c piece :: pieces
           end
  end.

(** [[term.strip() for term in re.split(r'[,\n]', raw) if term.strip()]]. *)
Definition parse_terms (raw : string) : list string :=
  map strip (filter (fun term => negb (String.eqb (strip term) "")) (re_split raw)).

(** ** The clock: [datetime] as a proleptic Gregorian day ordinal
    ([date.toordinal()], day 1 is 0001-01-01). *)

Definition days_before_month (month : Z) : Z :=
  nth (Z.to_nat month) [0; 0; 31; 59; 90; 120; 151; 181; 212; 243; 273; 304; 334]%Z 0%Z.

Definition days_in_month (month : Z) : Z :=
  nth (Z.to_nat month) [0; 31; 28; 31; 30; 31; 30; 31; 31; 30; 31; 30; 31]%Z 0%Z.

(** [datetime._ord2ymd]. *)
Definition ord2ymd (ordinal : Z) : Z * Z * Z :=
  let n := (ordinal - 1)%Z in
  let n400 := (n / 146097)%Z in
  let n := (n mod 146097)%Z in
  let n100 := (n / 36524)%Z in
  let n := (n mod 36524)%Z in
  let n4 := (n / 1461)%Z in
  let n := (n mod 1461)%Z in
  let n1 := (n / 365)%Z in
  let n := (n mod 365)%Z in
  let year := (n400 * 400 + 1 + n100 * 100 + n4 * 4 + n1)%Z in
  if (n1 =? 4)%Z || (n100 =? 4)%Z then (year - 1, 12, 31)%Z
  else
    let leapyear := (n1 =? 3)%Z && (negb (n4 =? 24)%Z || (n100 =? 3)%Z) in
    let month := Z.shiftr (n + 50) 5 in
    let preceding :=
      (days_before_month month + (if (2 <? month)%Z && leapyear then 1 else 0))%Z in
    if (n <? preceding)%Z then
      let month := (month - 1)%Z in
      let preceding :=
        (preceding - (days_in_month month
                      + (if (month =? 2)%Z && leapyear then 1 else 0)))%Z in
      (year, month, n - preceding + 1)%Z
    else (year, month, n - preceding + 1)%Z.

Fixpoint zeros (n : nat) : string :=
  match n with
  | O => ""
  | S n' => String "0" (zeros n')
  end.

Definition zero_pad (width : nat) (s : string) : string :=
  zeros (width - String.length s) ++ s.

(** [d.strftime('%Y%m%d')]. *)
Definition strftime_Ymd (ordinal : Z) : string :=
  let '(y, m, d) := ord2ymd ordinal in
  zero_pad 4 (str_of_Z y) ++ zero_pad 2 (str_of_Z m) ++ zero_pad 2 (str_of_Z d).

(** ** Configuration and stores *)

Definition API_BASE_URL : string := "https://storeapi.parcelninja.com/api/v1".

Record Store : Type := mkStore
  { id : string; name : string; username : string; password : string }.

(** ** The remote service as the worker sees it *)

Inductive param : Type :=
| PStr (s : string)
| PInt (n : Z).

Record request : Type := mkRequest
  { url : string;
    headers : list (string * string);
    params : list (string * param);
    auth : string * string;
    timeout : Z }.

(** Exceptions that can leave a call.  [RequestException] stands for
    [requests.RequestException] and its subclasses, with [str(e)]. *)
Inductive exn : Type :=
| RequestException (description : string)
| TypeError
| AttributeError
| ValueError (description : string).

(** What [response.json()] does when it is called. *)
Inductive json_result : Type :=
| JsonValue (data : value)
| JsonRaises (e : exn).

Record response : Type := mkResponse
  { status_code : Z; text : string; json : json_result }.

Inductive http_outcome : Type :=
| Responds (r : response)
| Raises (e : exn).

(** Everything outside the worker, as observed while the term at a given
    position of the list is handled: the stop flag read at the top of the
    loop, the clock, and the answer to the request that is sent. *)
Record world : Type := mkWorld
  { is_set : nat -> bool;
    utcnow : nat -> Z;
    requests_get : nat -> request -> http_outcome }.

(** ** Messages put on [api_queue] *)

Inductive message : Type :=
| LogMsg (msg : string) (level : option string)
| DoneMsg (results : list dict).

Definition is_log (m : message) : bool :=
  match m with LogMsg _ _ => true | DoneMsg _ => false end.

(** The placeholder appended for a term that found nothing. *)
Definition placeholder (term status_error : string) (store : Store) : dict :=
  [("shipment_id_searched", VStr term);
   ("status_error", VStr status_error);
   ("_store_name", VStr (name store))].

(** ** The worker: [run_api_search] *)

Definition point_request (store : Store) (term : string) : request :=
  {| url := API_BASE_URL ++ "/outbounds/0";
     headers := [("Accept", "application/json"); ("X-Client-Id", term)];
     params := [];
     auth := (username store, password store);
     timeout := 20 |}.

(** The lookup table of the general search; its result is bound to
    [api_search_field] in the source. *)
Definition api_search_field (search_field : string) : string :=
  match dict_find [("Client ID", VStr "clientId");
                   ("Channel ID", VStr "channelId");
                   ("Supplier Reference", VStr "supplierReference")] search_field with
  | Some (VStr p) => p
  | _ => "search"
  end.

Definition windowed_request (store : Store) (search_type term : string)
    (end_date : Z) : request :=
  let start_date := (end_date - 730)%Z in
  {| url := API_BASE_URL ++ "/" ++ search_type ++ "s";
     headers := [("Accept", "application/json")];
     params := [("startDate", PStr (strftime_Ymd start_date));
                ("endDate", PStr (strftime_Ymd end_date));
                ("search", PStr term);
                ("pageSize", PInt 100)];
     auth := (username store, password store);
     timeout := 30 |}.

(** [for item in found_items: item['_store_name'] = store.name;
    results.append(item)], for a list; an item that is not a dictionary
    does not support item assignment. *)
Fixpoint tag_items (items : list value) (store : Store) : list dict + exn :=
  match items with
  | [] => inl []
  | VDict item :: rest =>
      match tag_items rest store with
      | inl tagged => inl (dict_set item "_store_name" (VStr (name store)) :: tagged)
      | inr e => inr e
      end
  | _ :: _ => inr TypeError
  end.

(** The body of the [try] for one term: the messages it puts, and either
    the records it appends to [results] and [found_for_term], or the
    exception that leaves it. *)
Definition try_body := (list message * (list dict * bool + exn))%type.

Definition point_lookup (w : world) (store : Store) (index : nat) (term : string)
  : try_body :=
  let req := point_request store term in
  let log_get :=
    LogMsg ("GET " ++ url req ++ " [X-Client-Id: " ++ term ++ "]") (Some "DEBUG") in
  match requests_get w index req with
  | Raises e => ([log_get], inr e)
  | Responds r =>
      if (status_code r =? 200)%Z then
        match json r with
        | JsonRaises e => ([log_get], inr e)
        | JsonValue (VDict data) =>
            ([log_get], inl ([dict_set data "_store_name" (VStr (name store))], true))
        | JsonValue _ => ([log_get], inr TypeError)
        end
      else if (status_code r =? 404)%Z then
        ([log_get; LogMsg ("Term '" ++ term ++ "' not found (404).") (Some "WARN")],
         inl ([], false))
      else
        let error_msg :=
          "HTTP " ++ str_of_Z (status_code r) ++ ": " ++ substring 0 50 (text r) in
        ([log_get;
          LogMsg ("Error for '" ++ term ++ "': " ++ error_msg) (Some "ERROR")],
         inl ([], false))
  end.

Definition windowed_search (w : world) (store : Store)
    (search_type search_field : string) (index : nat) (term : string) : try_body :=
  let api_search_field := api_search_field search_field in   (* never read again *)
  let req := windowed_request store search_type term (utcnow w index) in
  let log_get := LogMsg ("GET " ++ url req ++ " ?search=" ++ term) (Some "DEBUG") in
  match requests_get w index req with
  | Raises e => ([log_get], inr e)
  | Responds r =>
      if (status_code r =? 200)%Z then
        match json r with
        | JsonRaises e => ([log_get], inr e)
        | JsonValue (VDict data) =>
            let found_items := dict_get data (search_type ++ "s") (VList []) in
            if truthy found_items then
              match found_items with
              | VList items =>
                  match tag_items items store with
                  | inl tagged => ([log_get], inl (tagged, true))
                  | inr e => ([log_get], inr e)
                  end
              | _ => ([log_get], inr TypeError)
              end
            else
              ([log_get;
                LogMsg ("Term '" ++ term ++ "' returned 0 results.") (Some "WARN")],
               inl ([], false))
        | JsonValue _ => ([log_get], inr AttributeError)
        end
      else
        ([log_get;
          LogMsg ("Error for '" ++ term ++ "': HTTP " ++ str_of_Z (status_code r))
                 (Some "ERROR")],
         inl ([], false))
  end.

Definition is_point_lookup (search_type search_field : string) : bool :=
  String.eqb search_type "outbound" && String.eqb search_field "Client ID".

(** One iteration of the loop after the stop check and the progress
    message: [try ... except requests.RequestException].  The result is the
    messages put and either the records appended or an exception nothing
    catches. *)
Definition process_term (w : world) (store : Store) (search_type search_field : string)
    (index : nat) (term : string) : list message * (list dict + exn) :=
  let '(msgs, outcome) :=
    if is_point_lookup search_type search_field
    then point_lookup w store index term
    else windowed_search w store search_type search_field index term in
  match outcome with
  | inl (appended, found_for_term) =>
      if found_for_term then (msgs, inl appended)
      else (msgs, inl (appended ++ [placeholder term "Not Found" store])%list)
  | inr (RequestException e) =>
      ((msgs ++ [LogMsg ("Exception for '" ++ term ++ "': " ++ e) (Some "ERROR")])%list,
       inl [placeholder term ("Network Error: " ++ e) store])
  | inr e => (msgs, inr e)
  end.

Definition progress (index total : nat) (term : string) : message :=
  LogMsg ("Searching (" ++ str_of_nat (index + 1) ++ "/" ++ str_of_nat total
          ++ "): " ++ term ++ "...") None.

Definition stop_notice : message := LogMsg "Search stopped by user." (Some "WARN").

(** The [for index, term in enumerate(terms)] loop, from position [index]
    with [results] accumulated so far. *)
Fixpoint search_loop (w : world) (store : Store) (search_type search_field : string)
    (total index : nat) (terms : list string) (results : list dict)
  : list message * (list dict + exn) :=
  match terms with
  | [] => ([], inl results)
  | term :: rest =>
      if is_set w index then ([stop_notice], inl results)
      else
        match process_term w store search_type search_field index term with
        | (msgs, inl appended) =>
            let '(later, out) :=
              search_loop w store search_type search_field total (S index) rest
                          (results ++ appended)%list in
            (progress index total term :: (msgs ++ later)%list, out)
        | (msgs, inr e) => (progress index total term :: msgs, inr e)
        end
  end.

(** What a run of the worker thread leaves behind: the messages on the
    queue, and the exception that ended the thread, if one did. *)
Record worker_run : Type := mkRun
  { queue : list message; uncaught : option exn }.

Definition run_api_search (w : world) (store : Store)
    (search_type search_field : string) (terms : list string) : worker_run :=
  match search_loop w store search_type search_field (List.length terms) 0 terms [] with
  | (msgs, inl results) =>
      {| queue := (msgs ++ [DoneMsg results])%list; uncaught := None |}
  | (msgs, inr e) => {| queue := msgs; uncaught := Some e |}
  end.

(** ** The window: results table, dialogs, export *)

Inductive widget_state : Type := normal | disabled.

Inductive dialog_kind : Type := showinfo | showwarning | showerror.

Record dialog : Type := mkDialog
  { kind : dialog_kind; title : string; body : string }.

(** The [Treeview]: its column identifiers, heading texts and widths, and
    its rows with their tag. *)
Record treeview : Type := mkTree
  { columns : list string;
    heading : list (string * string);
    width : list (string * Z);
    rows : list (list value * string) }.

Definition empty_tree : treeview :=
  {| columns := []; heading := []; width := []; rows := [] |}.

(** What [csv.DictWriter] has written to an opened file. *)
Record csv_file : Type := mkCsv
  { path : string; fieldnames : list string; written : list (list value) }.

(** The arguments a worker thread was started with. *)
Record thread : Type := mkThread
  { thread_store : Store; thread_search_type : string;
    thread_search_field : string; thread_terms : list string }.

(** The fields of [ParcelninjaSearchTool] and the effects of its methods.
    A line of [log_text] is kept as its level and message; the time prefix
    comes from the wall clock. *)
Record app : Type := mkApp
  { stores : list Store;
    store_var : string;
    search_type_var : string;
    search_field_var : string;
    search_term_var : string;
    results_data : list dict;
    stop_event : bool;
    is_searching : bool;
    tree : treeview;
    search_button : widget_state;
    stop_button : widget_state;
    refresh_button : widget_state;
    export_button : widget_state;
    status_label : string;
    log_text : list (string * string);
    dialogs : list dialog;
    threads : list thread;
    files : list csv_file }.

(** [self.log(message, level)]. *)
Definition log (a : app) (message level : string) : app :=
  {| stores := stores a; store_var := store_var a;
     search_type_var := search_type_var a; search_field_var := search_field_var a;
     search_term_var := search_term_var a; results_data := results_data a;
     stop_event := stop_event a; is_searching := is_searching a; tree := tree a;
     search_button := search_button a; stop_button := stop_button a;
     refresh_button := refresh_button a; export_button := export_button a;
     status_label := status_label a;
     log_text := (log_text a ++ [(level, message)])%list;
     dialogs := dialogs a; threads := threads a; files := files a |}.

(** A [messagebox] call. *)
Definition messagebox (a : app) (k : dialog_kind) (t b : string) : app :=
  {| stores := stores a; store_var := store_var a;
     search_type_var := search_type_var a; search_field_var := search_field_var a;
     search_term_var := search_term_var a; results_data := results_data a;
     stop_event := stop_event a; is_searching := is_searching a; tree := tree a;
     search_button := search_button a; stop_button := stop_button a;
     refresh_button := refresh_button a; export_button := export_button a;
     status_label := status_label a; log_text := log_text a;
     dialogs := (dialogs a ++ [{| kind := k; title := t; body := b |}])%list;
     threads := threads a; files := files a |}.

(** [next((s for s in self.stores if s.name == store_name), None)]. *)
Definition find_store (l : list Store) (store_name : string) : option Store :=
  find (fun s => String.eqb (name s) store_name) l.

(** [start_search]. *)
Definition start_search (a : app) : app :=
  let store_name := store_var a in
  let search_type := lower (search_type_var a) in
  let search_field := search_field_var a in
  let search_terms_raw := search_term_var a in
  if String.eqb (strip search_terms_raw) "" then
    messagebox a showwarning "Input Required"
               "Please enter one or more search terms."
  else
    let search_terms := parse_terms search_terms_raw in
    match find_store (stores a) store_name with
    | None =>
        messagebox a showerror "Error" "Could not find selected store credentials."
    | Some selected_store =>
        let a1 :=
          {| stores := stores a; store_var := store_var a;
             search_type_var := search_type_var a;
             search_field_var := search_field_var a;
             search_term_var := search_term_var a;
             results_data := [];
             stop_event := false;
             is_searching := true;
             tree := {| columns := columns (tree a); heading := heading (tree a);
                        width := width (tree a); rows := [] |};
             search_button := disabled;
             stop_button := normal;
             refresh_button := disabled;
             export_button := disabled;
             status_label :=
               "Searching in " ++ store_name ++ " for "
               ++ str_of_nat (List.length search_terms) ++ " term(s)...";
             log_text := log_text a; dialogs := dialogs a;
             threads := threads a; files := files a |} in
        let a2 :=
          log a1 ("Starting search in store '" ++ store_name ++ "' ("
                  ++ id selected_store ++ ")") "INFO" in
        let a3 :=
          log a2 ("Type: " ++ search_type ++ ", Field: " ++ search_field
                  ++ ", Terms: " ++ str_of_nat (List.length search_terms)) "INFO" in
        {| stores := stores a3; store_var := store_var a3;
           search_type_var := search_type_var a3;
           search_field_var := search_field_var a3;
           search_term_var := search_term_var a3;
           results_data := results_data a3; stop_event := stop_event a3;
           is_searching := is_searching a3; tree := tree a3;
           search_button := search_button a3; stop_button := stop_button a3;
           refresh_button := refresh_button a3; export_button := export_button a3;
           status_label := status_label a3; log_text := log_text a3;
           dialogs := dialogs a3;
           threads :=
             (threads a3 ++ [{| thread_store := selected_store;
                                thread_search_type := search_type;
                                thread_search_field := search_field;
                                thread_terms := search_terms |}])%list;
           files := files a3 |}
    end.

(** [sorted] on strings: insertion into an ordered list. *)
Fixpoint insert_sorted (x : string) (l : list string) : list string :=
  match l with
  | [] => [x]
  | y :: rest => if String.leb x y then x :: l else y :: insert_sorted x rest
  end.

Definition sorted (l : list string) : list string :=
  fold_right insert_sorted [] l.

Section Table.

Variable json_dumps : list value -> string.

(** [if '_store_name' in flat: flat['Store'] = flat.pop('_store_name')]. *)
Definition rename_store (flat : dict) : dict :=
  match dict_find flat "_store_name" with
  | Some v => dict_set (dict_remove flat "_store_name") "Store" v
  | None => flat
  end.

(** The [flat_results] list both the table and the export build. *)
Definition flat_results (results : list dict) : list dict :=
  map (fun record => rename_store (flatten json_dumps record)) results.

(** [all_headers] of [update_results_table]: a set that starts with
    ['Store'] and takes the keys of every flat record. *)
Definition table_header_set (flat : list dict) : set string :=
  fold_left (fun s record => fold_left (fun s k => set_add string_dec k s) (keys record) s)
            flat (set_add string_dec "Store" (empty_set string)).

Definition sorted_headers (flat : list dict) : list string :=
  "Store" :: sorted (filter (fun h => negb (String.eqb h "Store")) (table_header_set flat)).

(** [set(key for record in flat_results for key in record.keys() if key != 'Store')]
    and the header list of [export_to_csv]. *)
Definition export_header_set (flat : list dict) : set string :=
  fold_left (fun s k => set_add string_dec k s)
            (filter (fun key => negb (String.eqb key "Store")) (flat_map keys flat))
            (empty_set string).

Definition all_headers (flat : list dict) : list string :=
  "Store" :: sorted (export_header_set flat).

(** [[record.get(col, "") for col in sorted_headers]]. *)
Definition row_values (cols : list string) (record : dict) : list value :=
  map (fun col => dict_get record col (VStr "")) cols.

Definition row_tag (record : dict) : string :=
  match dict_find record "status_error" with
  | Some v => if truthy v then "error" else "normal"
  | None => "normal"
  end.

Definition column_width (col : string) : Z :=
  Z.max (Z.of_nat (String.length col) * 10) 100.

(** [update_results_table], as the tree it leaves. *)
Definition update_results_table (results : list dict) : treeview :=
  match results with
  | [] => empty_tree
  | _ =>
      let flat := flat_results results in
      let cols := sorted_headers flat in
      {| columns := cols;
         heading := map (fun col => (col, col)) cols;
         width := map (fun col => (col, column_width col)) cols;
         rows := map (fun record => (row_values cols record, row_tag record)) flat |}
  end.

(** [csv.DictWriter._dict_to_list] with the default [extrasaction='raise']
    and [restval='']. *)
Definition dict_to_list (names : list string) (rowdict : dict) : list value + exn :=
  match filter (fun k => negb (existsb (String.eqb k) names)) (keys rowdict) with
  | [] => inl (map (fun key => dict_get rowdict key (VStr "")) names)
  | _ :: _ => inr (ValueError "dict contains fields not in fieldnames")
  end.

(** [writer.writerows(flat_results)]: the rows written, and the exception
    that stopped the writing, if any.  Text here is made of code points
    below 256, all of which the utf-8 file takes; the encoding error Python
    raises on a lone surrogate has no counterpart in this text, and nothing
    below speaks of it. *)
Fixpoint writerows (names : list string) (rowdicts : list dict)
  : list (list value) * option exn :=
  match rowdicts with
  | [] => ([], None)
  | rowdict :: rest =>
      match dict_to_list names rowdict with
      | inl row => let '(more, e) := writerows names rest in (row :: more, e)
      | inr e => ([], Some e)
      end
  end.

Definition add_file (a : app) (f : csv_file) : app :=
  {| stores := stores a; store_var := store_var a;
     search_type_var := search_type_var a; search_field_var := search_field_var a;
     search_term_var := search_term_var a; results_data := results_data a;
     stop_event := stop_event a; is_searching := is_searching a; tree := tree a;
     search_button := search_button a; stop_button := stop_button a;
     refresh_button := refresh_button a; export_button := export_button a;
     status_label := status_label a; log_text := log_text a;
     dialogs := dialogs a; threads := threads a;
     files := (files a ++ [f])%list |}.

(** [export_to_csv].  [chosen] is what the save dialog returns (empty when
    it is dismissed) and [open_error] the [IOError] raised by [open], if
    any.  The result is the window afterwards and the exception that left
    the method, if one did. *)
Definition export_to_csv (a : app) (chosen : string) (open_error : option string)
  : app * option exn :=
  match results_data a with
  | [] => (messagebox a showinfo "No Data" "There is no data to export.", None)
  | _ :: _ =>
      let filepath := chosen in
      if String.eqb filepath "" then (a, None)
      else
        let flat := flat_results (results_data a) in
        let names := all_headers flat in
        match open_error with
        | Some e =>
            let err_msg := "Could not write to file: " ++ e in
            (log (messagebox a showerror "Export Error" err_msg) err_msg "ERROR", None)
        | None =>
            match writerows names flat with
            | (written_rows, None) =>
                let a1 := add_file a {| path := filepath; fieldnames := names;
                                        written := written_rows |} in
                let a2 := messagebox a1 showinfo "Success"
                            ("Successfully exported data to:" ++ nl ++ filepath) in
                (log a2 ("Data exported to " ++ filepath) "INFO", None)
            | (written_rows, Some e) =>
                (add_file a {| path := filepath; fieldnames := names;
                               written := written_rows |}, Some e)
            end
        end
  end.

(** One message taken from the queue by [process_api_queue]. *)
Definition process_message (a : app) (m : message) : app :=
  match m with
  | LogMsg msg level =>
      log a msg (match level with Some l => l | None => "INFO" end)
  | DoneMsg results =>
      let count :=
        List.length (filter (fun r => negb (dict_mem r "status_error")) results) in
      let a1 :=
        {| stores := stores a; store_var := store_var a;
           search_type_var := search_type_var a;
           search_field_var := search_field_var a;
           search_term_var := search_term_var a;
           results_data := results;
           stop_event := stop_event a;
           is_searching := false;
           tree := update_results_table results;
           search_button := normal;
           stop_button := disabled;
           refresh_button := normal;
           export_button :=
             match results with [] => export_button a | _ :: _ => normal end;
           status_label :=
             "Search complete. Found " ++ str_of_nat count ++ " valid record(s).";
           log_text := log_text a; dialogs := dialogs a;
           threads := threads a; files := files a |} in
      log a1 ("Search Finished. Total rows: " ++ str_of_nat (List.length results)) "INFO"
  end.

(** [process_api_queue] draining the messages that are waiting. *)
Definition process_api_queue (a : app) (waiting : list message) : app :=
  fold_left process_message waiting a.

End Table.

(** ** Derived notions used to state the properties *)

(** The request the lookup of a term sends. *)
Definition lookup_request (w : world) (store : Store) (search_type search_field : string)
    (index : nat) (term : string) : request :=
  if is_point_lookup search_type search_field
  then point_request store term
  else windowed_request store search_type term (utcnow w index).

(** The records one term adds to [results]. *)
Definition term_records (w : world) (store : Store) (search_type search_field : string)
    (index : nat) (term : string) : list dict :=
  match snd (process_term w store search_type search_field index term) with
  | inl appended => appended
  | inr _ => []
  end.

(** The messages one term puts after its progress message. *)
Definition term_messages (w : world) (store : Store) (search_type search_field : string)
    (index : nat) (term : string) : list message :=
  fst (process_term w store search_type search_field index term).

(** The records of consecutive terms, the first one at position [index]. *)
Fixpoint records_from (w : world) (store : Store) (search_type search_field : string)
    (index : nat) (terms : list string) : list dict :=
  match terms with
  | [] => []
  | term :: rest =>
      (term_records w store search_type search_field index term
       ++ records_from w store search_type search_field (S index) rest)%list
  end.

(** The messages of consecutive terms that are all handled. *)
Fixpoint messages_from (w : world) (store : Store) (search_type search_field : string)
    (total index : nat) (terms : list string) : list message :=
  match terms with
  | [] => []
  | term :: rest =>
      (progress index total term
       :: term_messages w store search_type search_field index term
       ++ messages_from w store search_type search_field total (S index) rest)%list
  end.

(** How many terms the loop handles before it finds the stop flag set. *)
Fixpoint handled (w : world) (index : nat) (terms : list string) : nat :=
  match terms with
  | [] => 0
  | _ :: rest => if is_set w index then 0 else S (handled w (S index) rest)
  end.

Definition is_done (m : message) : bool := negb (is_log m).

(** An exception other than [requests.RequestException] leaves the lookup
    of the term. *)
Definition faults (w : world) (store : Store) (search_type search_field : string)
    (index : nat) (term : string) : bool :=
  match snd (process_term w store search_type search_field index term) with
  | inl _ => false
  | inr _ => true
  end.

(** Where the records of a term come from. *)
Inductive term_outcome (w : world) (store : Store) (search_type search_field : string)
    (index : nat) (term : string) : list dict -> Prop :=
| point_payload r data :
    is_point_lookup search_type search_field = true ->
    requests_get w index (point_request store term) = Responds r ->
    status_code r = 200%Z ->
    json r = JsonValue (VDict data) ->
    term_outcome w store search_type search_field index term
                 [dict_set data "_store_name" (VStr (name store))]
| windowed_payload r data item items :
    is_point_lookup search_type search_field = false ->
    requests_get w index
      (windowed_request store search_type term (utcnow w index)) = Responds r ->
    status_code r = 200%Z ->
    json r = JsonValue (VDict data) ->
    dict_get data (search_type ++ "s") (VList []) = VList (map VDict (item :: items)) ->
    term_outcome w store search_type search_field index term
                 (map (fun d => dict_set d "_store_name" (VStr (name store)))
                      (item :: items))
| synthetic status_error :
    term_outcome w store search_type search_field index term
                 [[("shipment_id_searched", VStr term);
                   ("status_error", VStr status_error);
                   ("_store_name", VStr (name store))]].

Definition has_level (level : string) (m : message) : bool :=
  match m with
  | LogMsg _ (Some l) => String.eqb l level
  | _ => false
  end.

Fixpoint unique (l : list string) : bool :=
  match l with
  | [] => true
  | k :: rest => negb (existsb (String.eqb k) rest) && unique rest
  end.

(** A flat record: a dictionary (its keys are distinct, as in any Python
    [dict]) whose values are all scalars. *)
Definition flat_record (d : dict) : bool :=
  unique (keys d) && forallb (fun kv => is_scalar (snd kv)) d.

(** A dictionary none of whose values is a mapping; sequences may occur. *)
Definition no_nested_mapping (d : dict) : bool :=
  unique (keys d) && forallb (fun kv => negb (is_mapping (snd kv))) d.

(** What flattening does to the value of a field that is not a mapping. *)
Definition encode (json_dumps : list value -> string) (v : value) : value :=
  match v with
  | VList l => VStr (json_dumps l)
  | _ => v
  end.

Definition str_lt (a b : string) : Prop := String.compare a b = Lt.

(** ** Sample data *)

Definition diesel : Store :=
  {| id := "7b0fb2ac-51bd-47ea-847e-cfb1584b4aa2"; name := "Diesel";
     username := "user"; password := "secret" |}.

Definition never_stopped : nat -> bool := fun _ => false.

Definition reply (status : Z) (payload : value) : http_outcome :=
  Responds {| status_code := status; text := ""; json := JsonValue payload |}.

(** The first request is answered with an order, every later one with 404. *)
Definition found_then_missing : world :=
  {| is_set := never_stopped;
     utcnow := fun _ => 739923%Z;
     requests_get := fun index _ =>
       match index with
       | O => reply 200 (VDict [("id", VInt 7); ("address", VDict [("city", VStr "Durban")])])
       | _ => reply 404 VNull
       end |}.

(** As above, with the stop flag found set before the second term. *)
Definition stopped_after_first : world :=
  {| is_set := fun index => Nat.leb 1 index;
     utcnow := utcnow found_then_missing;
     requests_get := requests_get found_then_missing |}.

Definition stopped_at_once : world :=
  {| is_set := fun _ => true;
     utcnow := utcnow found_then_missing;
     requests_get := requests_get found_then_missing |}.

(** Every request is answered 200 with a JSON array. *)
Definition array_payload : world :=
  {| is_set := never_stopped;
     utcnow := fun _ => 739923%Z;
     requests_get := fun _ _ => reply 200 (VList []) |}.

(** As above, with the stop flag found set from the second term on. *)
Definition array_payload_stopped : world :=
  {| is_set := fun index => Nat.leb 1 index;
     utcnow := utcnow array_payload;
     requests_get := requests_get array_payload |}.

(** Every request is answered 404. *)
Definition always_404 : world :=
  {| is_set := never_stopped;
     utcnow := fun _ => 739923%Z;
     requests_get := fun _ _ => reply 404 VNull |}.

(** The first search returns two returns, the second none, the third fails
    on the wire. *)
Definition inbound_world : world :=
  {| is_set := never_stopped;
     utcnow := fun _ => 739923%Z;
     requests_get := fun index _ =>
       match index with
       | 0 => reply 200 (VDict [("inbounds",
                                VList [VDict [("id", VInt 1)];
                                       VDict [("id", VInt 2); ("items", VList [VInt 3])]])])
       | 1 => reply 200 (VDict [("inbounds", VList [])])
       | _ => Raises (RequestException "timed out")
       end |}.

(** Every request is answered 200 with a body that is not JSON, which
    [response.json()] reports with the [requests] exception for it. *)
Definition undecodable_body : world :=
  {| is_set := never_stopped;
     utcnow := fun _ => 739923%Z;
     requests_get := fun _ _ =>
       Responds {| status_code := 200; text := "<html>Service unavailable</html>";
                   json := JsonRaises (RequestException
                             "Expecting value: line 1 column 1 (char 0)") |} |}.

Definition sample_dumps : list value -> string := fun _ => "[...]".

Definition blank_app : app :=
  {| stores := [diesel]; store_var := "Diesel"; search_type_var := "Outbound";
     search_field_var := "Client ID"; search_term_var := "";
     results_data := []; stop_event := false; is_searching := false;
     tree := empty_tree;
     search_button := normal; stop_button := disabled; refresh_button := normal;
     export_button := disabled; status_label := "Ready."; log_text := [];
     dialogs := []; threads := []; files := [] |}.

(** The window after a search that found one order, with the term entry
    holding [raw]. *)
Definition app_with (raw : string) (results : list dict) : app :=
  {| stores := [diesel]; store_var := "Diesel"; search_type_var := "Outbound";
     search_field_var := "Client ID"; search_term_var := raw;
     results_data := results; stop_event := false; is_searching := false;
     tree := update_results_table sample_dumps results;
     search_button := normal; stop_button := disabled; refresh_button := normal;
     export_button := normal; status_label := "Ready."; log_text := [];
     dialogs := []; threads := []; files := [] |}.

Definition two_records : list dict :=
  [[("a", VDict [("b", VInt 5)]); ("_store_name", VStr "Diesel")];
   [("shipment_id_searched", VStr "A2"); ("status_error", VStr "Not Found");
    ("_store_name", VStr "Diesel")]].

(** ** The rest of the window: construction, stop and reset *)

(** The choices [_update_search_fields] puts in the 'Search By' menu. *)
Definition search_field_values (search_type : string) : list string :=
  if String.eqb search_type "Outbound"
  then ["Client ID"; "Channel ID"]
  else ["Client ID"; "Supplier Reference"].

(** [_update_search_fields]: the menu is refilled and its first entry
    selected. *)
Definition _update_search_fields (a : app) : app :=
  let fields := search_field_values (search_type_var a) in
  {| stores := stores a; store_var := store_var a;
     search_type_var := search_type_var a;
     search_field_var :=
       match fields with [] => search_field_var a | first :: _ => first end;
     search_term_var := search_term_var a; results_data := results_data a;
     stop_event := stop_event a; is_searching := is_searching a; tree := tree a;
     search_button := search_button a; stop_button := stop_button a;
     refresh_button := refresh_button a; export_button := export_button a;
     status_label := status_label a; log_text := log_text a;
     dialogs := dialogs a; threads := threads a; files := files a |}.

Definition configuration_error : dialog :=
  {| kind := showerror; title := "Configuration Error";
     body := "No Parcelninja credentials found in environment variables." ++ nl ++ nl
             ++ "Please set variables like:" ++ nl
             ++ "PARCELNINJA_USER_<STORE_ID>=<username>" ++ nl
             ++ "PARCELNINJA_PASS_<STORE_ID>=<password>" |}.

(** [__init__] followed by [_create_widgets]: without stores the window is
    destroyed after an error dialog, otherwise it opens with the first
    store selected. *)
Definition __init__ (loaded : list Store) : app + dialog :=
  match loaded with
  | [] => inr configuration_error
  | first :: _ =>
      inl (_update_search_fields
             {| stores := loaded; store_var := name first;
                search_type_var := "Outbound"; search_field_var := "";
                search_term_var := ""; results_data := [];
                stop_event := false; is_searching := false; tree := empty_tree;
                search_button := normal; stop_button := disabled;
                refresh_button := normal; export_button := disabled;
                status_label := "Ready."; log_text := [];
                dialogs := []; threads := []; files := [] |})
  end.

(** [stop_search]. *)
Definition stop_search (a : app) : app :=
  if is_searching a then
    let a1 :=
      log {| stores := stores a; store_var := store_var a;
             search_type_var := search_type_var a;
             search_field_var := search_field_var a;
             search_term_var := search_term_var a; results_data := results_data a;
             stop_event := true;
             is_searching := is_searching a; tree := tree a;
             search_button := search_button a; stop_button := stop_button a;
             refresh_button := refresh_button a; export_button := export_button a;
             status_label := status_label a; log_text := log_text a;
             dialogs := dialogs a; threads := threads a; files := files a |}
          "Stopping search..." "WARN" in
    {| stores := stores a1; store_var := store_var a1;
       search_type_var := search_type_var a1;
       search_field_var := search_field_var a1;
       search_term_var := search_term_var a1; results_data := results_data a1;
       stop_event := stop_event a1; is_searching := is_searching a1; tree := tree a1;
       search_button := search_button a1;
       stop_button := disabled;
       refresh_button := refresh_button a1; export_button := export_button a1;
       status_label := "Stopping...";
       log_text := log_text a1;
       dialogs := dialogs a1; threads := threads a1; files := files a1 |}
  else a.

(** [reset_ui]. *)
Definition reset_ui (a : app) : app :=
  let a1 := if is_searching a then stop_search a else a in
  log {| stores := stores a1; store_var := store_var a1;
         search_type_var := search_type_var a1;
         search_field_var := search_field_var a1;
         search_term_var := "";
         results_data := [];
         stop_event := stop_event a1; is_searching := is_searching a1;
         tree := {| columns := columns (tree a1); heading := heading (tree a1);
                    width := width (tree a1); rows := [] |};
         search_button := normal;
         stop_button := disabled;
         refresh_button := refresh_button a1;
         export_button := disabled;
         status_label := "UI Reset. Ready.";
         log_text := [];
         dialogs := dialogs a1; threads := threads a1; files := files a1 |}
      "Application reset." "INFO".

(** The user typing [raw] into the entry bound to [search_term_var]. *)
Definition set_search_term (a : app) (raw : string) : app :=
  {| stores := stores a; store_var := store_var a;
     search_type_var := search_type_var a; search_field_var := search_field_var a;
     search_term_var := raw; results_data := results_data a;
     stop_event := stop_event a; is_searching := is_searching a; tree := tree a;
     search_button := search_button a; stop_button := stop_button a;
     refresh_button := refresh_button a; export_button := export_button a;
     status_label := status_label a; log_text := log_text a;
     dialogs := dialogs a; threads := threads a; files := files a |}.

(** ** Credentials from the environment: [load_stores_from_env] *)

Definition STORE_ID_TO_NAME : list (string * string) :=
  [("7b0fb2ac-51bd-47ea-847e-cfb1584b4aa2", "Diesel");
   ("a504304c-ad27-4b9b-8625-92a314498e64", "Hurley");
   ("80f123d6-f9de-45b9-938c-61c0a358f205", "Jeep Apparel");
   ("b112948b-0390-4833-8f41-47f997c5382c", "Superdry");
   ("963f57af-6f46-4d6d-b07c-dc4aa684cdfa", "Reebok")].

(** [os.environ.get(k)] on the environment as a list of its items. *)
Fixpoint environ_get (environ : list (string * string)) (k : string) : option string :=
  match environ with
  | [] => None
  | (k', v) :: rest => if String.eqb k' k then Some v else environ_get rest k
  end.

Fixpoint strip_prefix (p s : string) : option string :=
  match p, s with
  | "", _ => Some s
  | String a p', String b s' => if Ascii.eqb a b then strip_prefix p' s' else None
  | String _ _, "" => None
  end.

Definition is_newline (c : ascii) : bool := Nat.eqb (nat_of_ascii c) 10.

(** The longest run of characters other than a newline, and what follows. *)
Fixpoint take_line (s : string) : string * string :=
  match s with
  | "" => ("", "")
  | String c s' =>
      if is_newline c then ("", s)
      else let '(line, rest) := take_line s' in (String c line, rest)
  end.

(** [re.compile(r"^PARCELNINJA_USER_(.+)$").match(key)], as group 1 of the
    match: [.] takes any character but a newline, and [$] stands at the end
    of the text or before a newline that ends it. *)
Definition user_pattern_match (key : string) : option string :=
  match strip_prefix "PARCELNINJA_USER_" key with
  | None => None
  | Some rest =>
      let '(group1, tail) := take_line rest in
      if String.eqb group1 "" then None
      else if String.eqb tail "" || String.eqb tail nl then Some group1
      else None
  end.

(** [STORE_ID_TO_NAME.get(clean_id, f"Store ({store_id[:8]}...)")]. *)
Definition store_display_name (store_id : string) : string :=
  match environ_get STORE_ID_TO_NAME (lower store_id) with
  | Some friendly => friendly
  | None => "Store (" ++ substring 0 8 store_id ++ "...)"
  end.

(** The store one item of the environment gives, if any. *)
Definition store_of_item (environ : list (string * string)) (item : string * string)
  : option Store :=
  let '(key, value) := item in
  match user_pattern_match key with
  | None => None
  | Some group1 =>
      let store_id := strip group1 in
      let username := value in
      match environ_get environ ("PARCELNINJA_PASS_" ++ store_id) with
      | None => None
      | Some password =>
          if negb (String.eqb username "") && negb (String.eqb password "")
          then Some {| id := store_id; name := store_display_name store_id;
                       username := username; password := password |}
          else None
      end
  end.

Fixpoint collect_stores (environ items : list (string * string)) : list Store :=
  match items with
  | [] => []
  | item :: rest =>
      match store_of_item environ item with
      | Some s => s :: collect_stores environ rest
      | None => collect_stores environ rest
      end
  end.

(** [sorted(stores, key=lambda s: s.name)]: a stable sort. *)
Fixpoint insert_store (s : Store) (l : list Store) : list Store :=
  match l with
  | [] => [s]
  | t :: rest =>
      if String.leb (name s) (name t) then s :: l else t :: insert_store s rest
  end.

Definition sort_stores (l : list Store) : list Store := fold_right insert_store [] l.

Definition load_stores_from_env (environ : list (string * string)) : list Store :=
  sort_stores (collect_stores environ environ).

(** ** Notions used to state the further properties *)

Fixpoint all_chars (p : ascii -> bool) (s : string) : bool :=
  match s with
  | "" => true
  | String c s' => p c && all_chars p s'
  end.

(** A term as the parser returns it: not empty, no white space at either
    end, no comma and no newline inside. *)
Definition clean_term (t : string) : bool :=
  negb (String.eqb t "") && String.eqb (strip t) t
  && all_chars (fun c => negb (is_separator c)) t.

(** How a queue message shows in the log window. *)
Definition log_line (m : message) : list (string * string) :=
  match m with
  | LogMsg msg (Some level) => [(level, msg)]
  | LogMsg msg None => [("INFO", msg)]
  | DoneMsg _ => []
  end.

Definition has_prefix (p s : string) : bool :=
  match strip_prefix p s with Some _ => true | None => false end.

Definition by_name (s t : Store) : Prop := String.leb (name s) (name t) = true.

(** ** Further sample data *)

Definition sample_environ : list (string * string) :=
  [("PATH", "/usr/bin");
   ("PARCELNINJA_USER_B112948B-0390-4833-8F41-47F997C5382C", "superdry-api");
   ("PARCELNINJA_PASS_B112948B-0390-4833-8F41-47F997C5382C", "s3cret");
   ("PARCELNINJA_USER_7b0fb2ac-51bd-47ea-847e-cfb1584b4aa2", "diesel-api");
   ("PARCELNINJA_PASS_7b0fb2ac-51bd-47ea-847e-cfb1584b4aa2", "hunter2");
   ("PARCELNINJA_USER_warehouse-9", "wh9");
   ("PARCELNINJA_PASS_warehouse-9", "pw9");
   ("PARCELNINJA_USER_nopass", "orphan");
   ("PARCELNINJA_PASS_empty", "x");
   ("PARCELNINJA_USER_empty", "")].

(** The window while a search for two terms is under way. *)
Definition searching_app : app := start_search (app_with "A1,A2" two_records).

(** A world that answers like [inbound_world] but whose clock and stop flag
    differ, and that answers differently once three terms are done. *)
Definition inbound_world_later : world :=
  {| is_set := fun index => Nat.leb 7 index;
     utcnow := utcnow inbound_world;
     requests_get := fun index req =>
       if Nat.leb 3 index then reply 500 VNull else requests_get inbound_world index req |}.

(** * Properties *)

Local Open Scope list_scope.

(** ** Dictionaries *)

Lemma existsb_eqb_In (k : string) (l : list string) :
  existsb (String.eqb k) l = true <-> In k l.
Proof.
  rewrite existsb_exists. split.
  - intros (x & Hin & Heq). apply String.eqb_eq in Heq. now subst.
  - intros Hin. exists k. split; [assumption | apply String.eqb_refl].
Qed.

Lemma unique_NoDup (l : list string) : unique l = true <-> NoDup l.
Proof.
  induction l as [|k rest IH]; simpl.
  - split; [constructor | reflexivity].
  - rewrite andb_true_iff, negb_true_iff, IH. split.
    + intros [Hk Hrest]. constructor; [|assumption].
      intros Hin. apply existsb_eqb_In in Hin. congruence.
    + intros Hnd. inversion Hnd as [|? ? Hk Hrest]; subst. split; [|assumption].
      destruct (existsb (String.eqb k) rest) eqn:E; [|reflexivity].
      apply existsb_eqb_In in E. contradiction.
Qed.

Lemma dict_find_None (d : dict) (k : string) :
  dict_find d k = None <-> ~ In k (keys d).
Proof.
  induction d as [|[k' v] rest IH]; simpl.
  - tauto.
  - destruct (String.eqb_spec k' k) as [->|Hne].
    + split; [discriminate | intros H; exfalso; apply H; now left].
    + rewrite IH. split; [intros H [E|Hin]; auto | intros H Hin; apply H; now right].
Qed.

Lemma dict_find_In (d : dict) (k : string) (v : value) :
  dict_find d k = Some v -> In (k, v) d.
Proof.
  induction d as [|[k' v'] rest IH]; simpl; [discriminate|].
  destruct (String.eqb_spec k' k) as [->|Hne].
  - intros [= ->]. now left.
  - intros H. right. now apply IH.
Qed.

Lemma dict_set_fresh (d : dict) (k : string) (v : value) :
  ~ In k (keys d) -> dict_set d k v = d ++ [(k, v)].
Proof.
  induction d as [|[k' v'] rest IH]; simpl; intros Hk; [reflexivity|].
  destruct (String.eqb_spec k' k) as [->|Hne].
  - exfalso. apply Hk. now left.
  - f_equal. apply IH. intros Hin. apply Hk. now right.
Qed.

Lemma keys_dict_set (d : dict) (k : string) (v : value) :
  keys (dict_set d k v) = if dict_mem d k then keys d else keys d ++ [k].
Proof.
  unfold dict_mem. induction d as [|[k' v'] rest IH]; simpl; [reflexivity|].
  destruct (String.eqb_spec k' k) as [->|Hne]; simpl; [reflexivity|].
  rewrite IH. now destruct (dict_find rest k).
Qed.

Lemma In_keys_dict_set (d : dict) (k : string) (v : value) (k' : string) :
  In k' (keys (dict_set d k v)) <-> In k' (keys d) \/ k' = k.
Proof.
  rewrite keys_dict_set. unfold dict_mem.
  destruct (dict_find d k) eqn:E.
  - split; [now left|]. intros [H| ->]; [assumption|].
    apply dict_find_In in E. now apply (in_map fst) in E.
  - rewrite in_app_iff. simpl. intuition.
Qed.

Lemma NoDup_keys_dict_set (d : dict) (k : string) (v : value) :
  NoDup (keys d) -> NoDup (keys (dict_set d k v)).
Proof.
  intros Hnd. rewrite keys_dict_set. unfold dict_mem.
  destruct (dict_find d k) eqn:E; [assumption|].
  apply dict_find_None in E.
  apply NoDup_app; [assumption | repeat constructor; intros [] | ].
  intros x Hx [<-|[]]. contradiction.
Qed.

Lemma In_dict_set (d : dict) (k : string) (v : value) (kv : string * value) :
  In kv (dict_set d k v) -> In kv d \/ kv = (k, v).
Proof.
  induction d as [|[k' v'] rest IH]; simpl.
  - intros [<-|[]]. now right.
  - destruct (String.eqb_spec k' k) as [->|Hne]; simpl.
    + intros [<-|H]; [now right | left; now right].
    + intros [<-|H]; [left; now left|]. destruct (IH H); [left; now right | now right].
Qed.

Lemma dict_find_dict_set (d : dict) (k : string) (v : value) (k' : string) :
  dict_find (dict_set d k v) k' = if String.eqb k k' then Some v else dict_find d k'.
Proof.
  induction d as [|[k0 v0] rest IH]; simpl.
  - reflexivity.
  - destruct (String.eqb_spec k0 k) as [->|Hne]; simpl.
    + now destruct (String.eqb_spec k k').
    + rewrite IH. destruct (String.eqb_spec k0 k') as [->|Hne'].
      * destruct (String.eqb_spec k k'); [congruence | reflexivity].
      * reflexivity.
Qed.

Lemma fold_dict_set_fresh (items acc : dict) :
  NoDup (keys (acc ++ items)) ->
  fold_left (fun d kv => dict_set d (fst kv) (snd kv)) items acc = acc ++ items.
Proof.
  revert acc. induction items as [|[k v] rest IH]; intros acc Hnd; simpl.
  - now rewrite app_nil_r.
  - rewrite dict_set_fresh.
    + rewrite IH; rewrite <- app_assoc; [reflexivity | assumption].
    + unfold keys in Hnd. rewrite map_app in Hnd. simpl in Hnd.
      apply NoDup_remove_2 in Hnd. intros Hin. apply Hnd.
      apply in_or_app. now left.
Qed.

Lemma dict_of_items_unique (items : dict) :
  NoDup (keys items) -> dict_of_items items = items.
Proof. intros Hnd. unfold dict_of_items. now rewrite fold_dict_set_fresh. Qed.

Lemma fold_dict_set_inv (P : dict -> Prop) (items acc : dict) :
  P acc -> (forall d k v, P d -> In (k, v) items -> P (dict_set d k v)) ->
  P (fold_left (fun d kv => dict_set d (fst kv) (snd kv)) items acc).
Proof.
  revert acc. induction items as [|[k v] rest IH]; intros acc Hacc Hstep; simpl.
  - assumption.
  - apply IH.
    + apply Hstep; [assumption | now left].
    + intros d k' v' Hd Hin. apply Hstep; [assumption | now right].
Qed.

Lemma NoDup_keys_dict_of_items (items : dict) : NoDup (keys (dict_of_items items)).
Proof.
  unfold dict_of_items.
  apply (fold_dict_set_inv (fun d => NoDup (keys d))); [constructor|].
  intros d k v Hd _. now apply NoDup_keys_dict_set.
Qed.

Lemma In_dict_of_items (items : dict) (kv : string * value) :
  In kv (dict_of_items items) -> In kv items.
Proof.
  revert kv. unfold dict_of_items.
  apply (fold_dict_set_inv (fun d => forall kv, In kv d -> In kv items)).
  - intros kv [].
  - intros d k v Hd Hin kv Hkv. apply In_dict_set in Hkv as [H| ->]; auto.
Qed.

Lemma In_keys_fold_dict_set (items acc : dict) (k : string) :
  In k (keys (fold_left (fun d kv => dict_set d (fst kv) (snd kv)) items acc))
  <-> In k (keys acc) \/ In k (keys items).
Proof.
  revert acc. induction items as [|[k' v] rest IH]; intros acc; simpl.
  - tauto.
  - rewrite IH, In_keys_dict_set. intuition.
Qed.

Lemma In_keys_dict_of_items (items : dict) (k : string) :
  In k (keys (dict_of_items items)) <-> In k (keys items).
Proof. unfold dict_of_items. rewrite In_keys_fold_dict_set. simpl. tauto. Qed.

(** ** The flattener *)

Section FlattenerProperties.

Variable json_dumps : list value -> string.

Lemma _flatten_dict_eq d pk sep :
  _flatten_dict json_dumps d pk sep = dict_of_items (flatten_items json_dumps d pk sep).
Proof.
  unfold _flatten_dict. simpl. f_equal.
  induction d as [|[k v] rest IH]; [reflexivity|].
  simpl. destruct v; simpl; rewrite IH; reflexivity.
Qed.

Lemma flatten_value_scalar :
  forall v pk sep kv,
    In kv (flatten_value json_dumps v pk sep) -> is_scalar (snd kv) = true.
Proof.
  fix IH 1. intros v pk sep kv.
  destruct v as [ | | | | | |d]; simpl; try contradiction.
  intros Hin. apply In_dict_of_items in Hin. revert Hin.
  induction d as [|[k v'] rest IHd]; simpl; [contradiction|].
  pose proof (IH v' (join_key pk sep k) sep kv) as Hv'.
  destruct v'; simpl;
    try (intros [<-|Hin]; [reflexivity | now apply IHd]).
  intros Hin. apply in_app_or in Hin as [Hin|Hin]; [now apply Hv' | now apply IHd].
Qed.

Lemma flatten_scalar d pk sep kv :
  In kv (_flatten_dict json_dumps d pk sep) -> is_scalar (snd kv) = true.
Proof. apply flatten_value_scalar. Qed.

Lemma NoDup_keys_flatten d pk sep : NoDup (keys (_flatten_dict json_dumps d pk sep)).
Proof. rewrite _flatten_dict_eq. apply NoDup_keys_dict_of_items. Qed.

(** Without nested mappings the [items] list has the fields of the record,
    under their own names when there is no parent key. *)
Lemma flatten_items_shallow d pk sep :
  forallb (fun kv => negb (is_mapping (snd kv))) d = true ->
  flatten_items json_dumps d pk sep
  = map (fun kv => (join_key pk sep (fst kv), encode json_dumps (snd kv))) d.
Proof.
  induction d as [|[k v] rest IH]; simpl; [reflexivity|].
  rewrite andb_true_iff. intros [Hv Hrest].
  destruct v; simpl in *; try discriminate; now rewrite IH.
Qed.

Lemma encode_scalar v : is_scalar v = true -> encode json_dumps v = v.
Proof. now destruct v. Qed.

Lemma flatten_shallow d :
  no_nested_mapping d = true ->
  flatten json_dumps d = map (fun kv => (fst kv, encode json_dumps (snd kv))) d.
Proof.
  unfold no_nested_mapping, flatten. rewrite andb_true_iff. intros [Hu Hm].
  rewrite _flatten_dict_eq, flatten_items_shallow by assumption.
  unfold join_key. simpl.
  apply dict_of_items_unique.
  unfold keys. rewrite map_map. simpl. now apply unique_NoDup.
Qed.

Lemma flatten_flat d : flat_record d = true -> flatten json_dumps d = d.
Proof.
  unfold flat_record. rewrite andb_true_iff. intros [Hu Hs].
  rewrite flatten_shallow.
  - rewrite <- (map_id d) at 2. apply map_ext_in.
    intros [k v] Hin. simpl. f_equal. apply encode_scalar.
    rewrite forallb_forall in Hs. now apply (Hs (k, v)).
  - unfold no_nested_mapping. rewrite Hu. simpl.
    rewrite forallb_forall in *. intros kv Hin. specialize (Hs kv Hin).
    now destruct (snd kv).
Qed.

Lemma flat_record_flatten d pk sep :
  flat_record (_flatten_dict json_dumps d pk sep) = true.
Proof.
  unfold flat_record. rewrite andb_true_iff. split.
  - apply unique_NoDup, NoDup_keys_flatten.
  - apply forallb_forall. intros kv. apply flatten_scalar.
Qed.

Lemma append_inj_l (p a b : string) : (p ++ a = p ++ b)%string -> a = b.
Proof. induction p as [|c p IH]; simpl; [auto|]. intros [= H]. auto. Qed.

(** One level of nesting: the inner names are prefixed with the outer name
    and the separator. *)
Lemma flatten_nested k inner :
  k <> ""%string -> flat_record inner = true ->
  flatten json_dumps [(k, VDict inner)]
  = map (fun kv => ((k ++ "." ++ fst kv)%string, snd kv)) inner.
Proof.
  intros Hk Hflat. pose proof Hflat as Hflat'.
  unfold flat_record in Hflat. rewrite andb_true_iff in Hflat.
  destruct Hflat as [Hu Hs]. apply unique_NoDup in Hu.
  assert (Hinner : _flatten_dict json_dumps inner k "."
                   = map (fun kv => ((k ++ "." ++ fst kv)%string, snd kv)) inner).
  { rewrite _flatten_dict_eq, flatten_items_shallow.
    - unfold join_key. destruct (String.eqb_spec k ""); [contradiction|].
      rewrite dict_of_items_unique.
      + apply map_ext_in. intros [k' v] Hin. simpl. f_equal. apply encode_scalar.
        rewrite forallb_forall in Hs. now apply (Hs (k', v)).
      + unfold keys. rewrite map_map. simpl.
        assert (E : map (fun x : string * value => (k ++ String "." (fst x))%string) inner
                    = map (fun a => (k ++ String "." a)%string) (map fst inner))
          by now rewrite map_map.
        rewrite E.
        apply Finite.Injective_map_NoDup; [|exact Hu].
        intros a b Hab. apply append_inj_l in Hab. now injection Hab.
    - rewrite forallb_forall in *. intros kv Hin. specialize (Hs kv Hin).
      now destruct (snd kv). }
  unfold flatten. rewrite _flatten_dict_eq. cbn [flatten_items].
  change (join_key "" "." k) with k.
  rewrite app_nil_r, <- Hinner. apply dict_of_items_unique, NoDup_keys_flatten.
Qed.

(** C7.  Flattening is idempotent.  A record without nested mappings keeps
    its field names, its scalar values pass through unchanged and its
    sequence values become their serialized text; a record of scalars is
    left as it is; the result of flattening is always such a record, so
    flattening twice is flattening once; and the names of a nested mapping
    are joined to the outer name with a dot. *)
Theorem flatten_idempotent (d : dict) :
  flatten json_dumps (flatten json_dumps d) = flatten json_dumps d
  /\ flat_record (flatten json_dumps d) = true
  /\ (flat_record d = true -> flatten json_dumps d = d)
  /\ (no_nested_mapping d = true ->
      keys (flatten json_dumps d) = keys d
      /\ flatten json_dumps d = map (fun kv => (fst kv, encode json_dumps (snd kv))) d
      /\ forall k v, In (k, v) d -> is_scalar v = true -> In (k, v) (flatten json_dumps d))
  /\ (forall k, k <> ""%string -> flat_record d = true ->
      flatten json_dumps [(k, VDict d)]
      = map (fun kv => ((k ++ "." ++ fst kv)%string, snd kv)) d).
Proof.
  assert (Hflat : flat_record (flatten json_dumps d) = true)
    by apply flat_record_flatten.
  split; [now apply flatten_flat|].
  split; [assumption|].
  split; [apply flatten_flat|].
  split; [|intros k; apply flatten_nested].
  intros Hm. pose proof (flatten_shallow d Hm) as E. rewrite E.
  split; [|split; [reflexivity|]].
  - unfold keys. rewrite map_map. reflexivity.
  - intros k v Hin Hs. apply in_map_iff. exists (k, v). simpl.
    now rewrite encode_scalar.
Qed.

End FlattenerProperties.

Lemma flatten_idempotent_witness :
  (flat_record [("id"%string, VInt 1); ("city"%string, VStr "Durban")] = true
   /\ flatten sample_dumps [("id"%string, VInt 1); ("city"%string, VStr "Durban")]
      = [("id"%string, VInt 1); ("city"%string, VStr "Durban")])
  /\ (no_nested_mapping [("id"%string, VInt 1); ("tags"%string, VList [VInt 3])] = true
      /\ flatten sample_dumps [("id"%string, VInt 1); ("tags"%string, VList [VInt 3])]
         = [("id"%string, VInt 1); ("tags"%string, VStr (sample_dumps [VInt 3]))])
  /\ ("address"%string <> ""%string
      /\ flatten sample_dumps
           [("address"%string,
             VDict [("id"%string, VInt 1); ("city"%string, VStr "Durban")])]
         = [("address.id"%string, VInt 1); ("address.city"%string, VStr "Durban")]).
Proof.
  split; [|split].
  - split; [reflexivity|].
    apply (proj1 (proj2 (proj2 (flatten_idempotent sample_dumps
             [("id"%string, VInt 1); ("city"%string, VStr "Durban")])))).
    reflexivity.
  - split; [reflexivity|].
    apply (proj1 (proj2 (proj1 (proj2 (proj2 (proj2 (flatten_idempotent sample_dumps
             [("id"%string, VInt 1); ("tags"%string, VList [VInt 3])])))) eq_refl))).
  - split; [discriminate|].
    apply (proj2 (proj2 (proj2 (proj2 (flatten_idempotent sample_dumps
             [("id"%string, VInt 1); ("city"%string, VStr "Durban")]))))
             "address"%string); [discriminate | reflexivity].
Defined.

(** ** The worker *)

Section WorkerProperties.

Variable w : world.
Variable store : Store.
Variables search_type search_field : string.

Lemma tag_items_inl items tagged :
  tag_items items store = inl tagged ->
  exists ds, items = map VDict ds
             /\ tagged = map (fun d => dict_set d "_store_name" (VStr (name store))) ds.
Proof.
  revert tagged. induction items as [|item rest IH]; simpl; intros tagged H.
  - injection H as <-. now exists [].
  - destruct item; try discriminate.
    destruct (tag_items rest store) as [tagged'|e]; [|discriminate].
    injection H as <-. destruct (IH _ eq_refl) as (ds & -> & ->).
    now exists (d :: ds).
Qed.

Lemma tag_items_inr items e : tag_items items store = inr e -> e = TypeError.
Proof.
  induction items as [|item rest IH]; simpl; [discriminate|].
  destruct item; try (now intros [= <-]).
  destruct (tag_items rest store); [discriminate|].
  intros [= <-]. now apply IH.
Qed.

Lemma tag_items_map (items : list dict) :
  tag_items (map VDict items) store
  = inl (map (fun d => dict_set d "_store_name" (VStr (name store))) items).
Proof. induction items as [|d rest IH]; simpl; [reflexivity | now rewrite IH]. Qed.

Lemma truthy_list_cons (l : list value) :
  truthy (VList l) = true -> exists x rest, l = x :: rest.
Proof. destruct l; [discriminate | eauto]. Qed.

(** The lookup of one term either appends records that come from the
    payload or from a placeholder, and at least one, or it ends in an
    exception that nothing catches. *)
Lemma process_term_outcome index term appended :
  snd (process_term w store search_type search_field index term) = inl appended ->
  appended <> []
  /\ term_outcome w store search_type search_field index term appended.
Proof.
  unfold process_term, point_lookup, windowed_search.
  destruct (is_point_lookup search_type search_field) eqn:Hp.
  - destruct (requests_get w index (point_request store term)) as [r|e] eqn:Hget.
    + destruct (status_code r =? 200)%Z eqn:H200.
      * apply Z.eqb_eq in H200.
        destruct (json r) as [data|e] eqn:Hjson.
        -- destruct data; simpl; try discriminate.
           intros [= <-]. split; [discriminate|]. now apply point_payload with r.
        -- destruct e; simpl; try discriminate.
           intros [= <-]. split; [discriminate | constructor].
      * destruct (status_code r =? 404)%Z; simpl;
          intros [= <-]; (split; [discriminate | constructor]).
    + destruct e; simpl; try discriminate.
      intros [= <-]. split; [discriminate | constructor].
  - destruct (requests_get w index
                (windowed_request store search_type term (utcnow w index)))
      as [r|e] eqn:Hget.
    + destruct (status_code r =? 200)%Z eqn:H200.
      * apply Z.eqb_eq in H200.
        destruct (json r) as [data|e] eqn:Hjson.
        -- destruct data as [ | | | | | |data];
             try (simpl; discriminate).
           destruct (truthy (dict_get data (search_type ++ "s") (VList [])))
             eqn:Htruthy.
           ++ destruct (dict_get data (search_type ++ "s") (VList []))
                as [ | | | | |items| ] eqn:Hfound; try (simpl; discriminate).
              destruct (tag_items items store) as [tagged|e] eqn:Htag;
                [|apply tag_items_inr in Htag as ->; simpl; discriminate].
              simpl. intros [= <-].
              apply tag_items_inl in Htag as (ds & -> & ->).
              apply truthy_list_cons in Htruthy as (x & rest & Hds).
              destruct ds as [|d ds]; [discriminate|].
              split; [discriminate|]. now apply windowed_payload with r data.
           ++ simpl. intros [= <-]. split; [discriminate | constructor].
        -- destruct e; simpl; try discriminate.
           intros [= <-]. split; [discriminate | constructor].
      * simpl. intros [= <-]. split; [discriminate | constructor].
    + destruct e; simpl; try discriminate.
      intros [= <-]. split; [discriminate | constructor].
Qed.

(** A windowed search answered with a list of objects appends them in the
    order of the answer, each tagged with the store name. *)
Lemma windowed_records_in_answer_order index term r data items :
  is_point_lookup search_type search_field = false ->
  requests_get w index (windowed_request store search_type term (utcnow w index))
  = Responds r ->
  status_code r = 200%Z ->
  json r = JsonValue (VDict data) ->
  dict_get data (search_type ++ "s")%string (VList []) = VList (map VDict items) ->
  items <> [] ->
  term_records w store search_type search_field index term
  = map (fun d => dict_set d "_store_name" (VStr (name store))) items.
Proof.
  intros Hp Hget Hstatus Hjson Hfound Hitems.
  unfold term_records, process_term, windowed_search.
  apply Z.eqb_eq in Hstatus.
  rewrite Hp, Hget, Hstatus, Hjson, Hfound, tag_items_map.
  destruct items; [congruence | reflexivity].
Qed.

Lemma process_term_eta index term :
  faults w store search_type search_field index term = false ->
  process_term w store search_type search_field index term
  = (term_messages w store search_type search_field index term,
     inl (term_records w store search_type search_field index term)).
Proof.
  unfold faults, term_messages, term_records.
  destruct (process_term w store search_type search_field index term) as [msgs [a|e]];
    simpl; [reflexivity | discriminate].
Qed.

Lemma term_records_outcome index term :
  faults w store search_type search_field index term = false ->
  term_records w store search_type search_field index term <> []
  /\ term_outcome w store search_type search_field index term
                  (term_records w store search_type search_field index term).
Proof.
  intros Hf. apply process_term_outcome. now rewrite process_term_eta.
Qed.

(** Messages of a lookup are log messages. *)
Lemma term_messages_logs index term :
  forallb is_log (term_messages w store search_type search_field index term) = true.
Proof.
  unfold term_messages, process_term, point_lookup, windowed_search.
  destruct (is_point_lookup search_type search_field).
  - destruct (requests_get w index (point_request store term)) as [r|[]];
      try reflexivity.
    destruct (status_code r =? 200)%Z.
    + destruct (json r) as [[]|[]]; reflexivity.
    + destruct (status_code r =? 404)%Z; reflexivity.
  - destruct (requests_get w index _) as [r|[]]; try reflexivity.
    destruct (status_code r =? 200)%Z; [|reflexivity].
    destruct (json r) as [[ | | | | | |data]|[]]; try reflexivity.
    destruct (truthy _); [|reflexivity].
    destruct (dict_get data _ _); try reflexivity.
    destruct (tag_items _ _) as [|e] eqn:Htag; [reflexivity|].
    now apply tag_items_inr in Htag as ->.
Qed.

Lemma messages_from_logs total index terms :
  forallb is_log (messages_from w store search_type search_field total index terms) = true.
Proof.
  revert index. induction terms as [|term rest IH]; intros index; simpl; [reflexivity|].
  now rewrite forallb_app, term_messages_logs, IH.
Qed.

(** The loop, in terms of the number of terms it handles. *)
Lemma search_loop_handled total terms : forall index results,
  let n := handled w index terms in
  let prefix := firstn n terms in
  match search_loop w store search_type search_field total index terms results with
  | (msgs, inl batch) =>
      msgs = messages_from w store search_type search_field total index prefix
             ++ (if Nat.ltb n (List.length terms) then [stop_notice] else [])
      /\ batch = results ++ records_from w store search_type search_field index prefix
      /\ forall j term, nth_error prefix j = Some term ->
           faults w store search_type search_field (index + j) term = false
  | (msgs, inr e) =>
      exists j term, nth_error prefix j = Some term
        /\ faults w store search_type search_field (index + j) term = true
  end.
Proof.
  induction terms as [|term rest IH]; intros index results; simpl.
  - rewrite app_nil_r. repeat split. intros [|j] t; discriminate.
  - destruct (is_set w index) eqn:Hstop; simpl.
    + rewrite app_nil_r. repeat split. intros [|j] t; discriminate.
    + destruct (process_term w store search_type search_field index term)
        as [msgs [appended|e]] eqn:Hterm.
      * specialize (IH (S index) (results ++ appended)).
        assert (Hf : faults w store search_type search_field index term = false)
          by (unfold faults; now rewrite Hterm).
        assert (Hm : term_messages w store search_type search_field index term = msgs)
          by (unfold term_messages; now rewrite Hterm).
        assert (Hr : term_records w store search_type search_field index term = appended)
          by (unfold term_records; now rewrite Hterm).
        destruct (search_loop w store search_type search_field total (S index) rest
                              (results ++ appended)) as [later [batch|e]].
        -- destruct IH as (-> & -> & Hnofault).
           rewrite Hm, Hr, <- !app_assoc. repeat split.
           intros [|j] t; simpl.
           ++ intros [= <-]. now rewrite Nat.add_0_r.
           ++ intros Hj. rewrite Nat.add_succ_r. now apply Hnofault.
        -- destruct IH as (j & t & Hj & Hfault).
           exists (S j), t. split; [assumption|]. now rewrite Nat.add_succ_r.
      * exists 0, term. split; [reflexivity|].
        rewrite Nat.add_0_r. unfold faults. now rewrite Hterm.
Qed.

Lemma handled_le index terms : handled w index terms <= List.length terms.
Proof.
  revert index. induction terms as [|t rest IH]; intros index; simpl; [lia|].
  destruct (is_set w index); [lia|]. specialize (IH (S index)). lia.
Qed.


Lemma handled_first index terms n :
  n < List.length terms ->
  (forall j, j < n -> is_set w (index + j) = false) ->
  is_set w (index + n) = true ->
  handled w index terms = n.
Proof.
  revert index n. induction terms as [|t rest IH]; intros index n Hn Hbefore Hat;
    simpl in *; [lia|].
  destruct n as [|n].
  - rewrite Nat.add_0_r in Hat. now rewrite Hat.
  - rewrite <- (Nat.add_0_r index) at 1. rewrite Hbefore by lia.
    f_equal. apply IH; [lia | | now rewrite Nat.add_succ_comm].
    intros j Hj. rewrite Nat.add_succ_comm. apply Hbefore. lia.
Qed.

(** The run, when no exception ends the thread. *)
Lemma run_api_search_done terms :
  uncaught (run_api_search w store search_type search_field terms) = None ->
  let n := handled w 0 terms in
  queue (run_api_search w store search_type search_field terms)
  = messages_from w store search_type search_field (List.length terms) 0 (firstn n terms)
    ++ (if Nat.ltb n (List.length terms) then [stop_notice] else [])
    ++ [DoneMsg (records_from w store search_type search_field 0 (firstn n terms))]
  /\ forall j term, nth_error (firstn n terms) j = Some term ->
       faults w store search_type search_field j term = false.
Proof.
  unfold run_api_search.
  pose proof (search_loop_handled (List.length terms) terms 0 []) as H.
  destruct (search_loop w store search_type search_field (List.length terms) 0 terms [])
    as [msgs [batch|e]]; simpl; [|discriminate].
  intros _. destruct H as (-> & -> & Hnofault). simpl.
  rewrite <- app_assoc. split; [reflexivity | exact Hnofault].
Qed.

(** The thread ends normally exactly when no handled term faults. *)
Lemma run_api_search_completes terms :
  (forall j term, nth_error (firstn (handled w 0 terms) terms) j = Some term ->
     faults w store search_type search_field j term = false) ->
  uncaught (run_api_search w store search_type search_field terms) = None.
Proof.
  intros Hnofault. unfold run_api_search.
  pose proof (search_loop_handled (List.length terms) terms 0 []) as H.
  destruct (search_loop w store search_type search_field (List.length terms) 0 terms [])
    as [msgs [batch|e]]; simpl; [reflexivity|].
  destruct H as (j & term & Hj & Hfault). simpl in Hfault.
  rewrite (Hnofault j term Hj) in Hfault. discriminate.
Qed.

End WorkerProperties.

(** ** Claims about the worker *)



(** C3, as stated, fails: a 200 answer whose body is a JSON array makes the
    point lookup raise [TypeError], which nothing catches; the thread ends
    with two log messages on the queue and no terminal message. *)
Lemma array_payload_run_has_no_done :
  queue (run_api_search array_payload diesel "outbound" "Client ID" ["A1"; "A2"]%string)
  = [LogMsg "Searching (1/2): A1..." None;
     LogMsg "GET https://storeapi.parcelninja.com/api/v1/outbounds/0 [X-Client-Id: A1]"
            (Some "DEBUG"%string)]
  /\ uncaught (run_api_search array_payload diesel "outbound" "Client ID"
                 ["A1"; "A2"]%string) = Some TypeError
  /\ ~ (exists logs batch,
          queue (run_api_search array_payload diesel "outbound" "Client ID"
                   ["A1"; "A2"]%string) = logs ++ [DoneMsg batch]).
Proof.
  split; [reflexivity|]. split; [reflexivity|].
  intros (logs & batch & H).
  apply (f_equal (existsb is_done)) in H.
  rewrite existsb_app in H. simpl in H. rewrite orb_true_r in H.
  vm_compute in H. discriminate.
Qed.

(** C3, amended.  In every run that no uncaught exception ends, the queue
    holds log messages followed by one terminal message; its batch is the
    concatenation, in the order of the list, of the records of the terms
    handled before the stop flag was found set, and the records of a term
    searched by window are the returned items in the order of the answer. *)
Theorem logs_then_one_done (w : world) (store : Store)
    (search_type search_field : string) (terms : list string) :
  uncaught (run_api_search w store search_type search_field terms) = None ->
  let done_terms := firstn (handled w 0 terms) terms in
  exists logs,
    queue (run_api_search w store search_type search_field terms)
    = logs ++ [DoneMsg (records_from w store search_type search_field 0 done_terms)]
    /\ forallb is_log logs = true
    /\ (forall index term, nth_error done_terms index = Some term ->
          term_outcome w store search_type search_field index term
            (term_records w store search_type search_field index term))
    /\ (forall index term r data items,
          nth_error done_terms index = Some term ->
          is_point_lookup search_type search_field = false ->
          requests_get w index (windowed_request store search_type term (utcnow w index))
          = Responds r ->
          status_code r = 200%Z ->
          json r = JsonValue (VDict data) ->
          dict_get data (search_type ++ "s")%string (VList []) = VList (map VDict items) ->
          items <> [] ->
          term_records w store search_type search_field index term
          = map (fun d => dict_set d "_store_name" (VStr (name store))) items).
Proof.
  intros Hdone done_terms.
  destruct (run_api_search_done w store search_type search_field terms Hdone)
    as (Hq & Hnofault).
  exists (messages_from w store search_type search_field (List.length terms) 0 done_terms
          ++ (if Nat.ltb (handled w 0 terms) (List.length terms)
              then [stop_notice] else [])).
  split; [now rewrite <- app_assoc|]. split.
  - rewrite forallb_app, messages_from_logs.
    now destruct (Nat.ltb (handled w 0 terms) (List.length terms)).
  - split.
    + intros index term Hterm. apply term_records_outcome. now apply Hnofault.
    + intros index term r data items _.
      apply windowed_records_in_answer_order.
Qed.

Lemma logs_then_one_done_witness :
  uncaught (run_api_search inbound_world diesel "inbound" "Client ID"
              ["X"; "Y"; "Z"]%string) = None
  /\ exists logs,
       queue (run_api_search inbound_world diesel "inbound" "Client ID"
                ["X"; "Y"; "Z"]%string)
       = logs ++ [DoneMsg (records_from inbound_world diesel "inbound" "Client ID" 0
                             (firstn (handled inbound_world 0 ["X"; "Y"; "Z"]%string)
                                     ["X"; "Y"; "Z"]%string))]
       /\ forallb is_log logs = true
       /\ forall index term,
            nth_error (firstn (handled inbound_world 0 ["X"; "Y"; "Z"]%string)
                              ["X"; "Y"; "Z"]%string) index = Some term ->
            term_outcome inbound_world diesel "inbound" "Client ID" index term
              (term_records inbound_world diesel "inbound" "Client ID" index term).
Proof.
  split; [reflexivity|].
  destruct (logs_then_one_done inbound_world diesel "inbound" "Client ID"
              ["X"; "Y"; "Z"]%string eq_refl) as (logs & Hq & Hlogs & Hout & _).
  exists logs. repeat split; assumption.
Defined.

(** C4, as stated, fails in two places.  With an empty list the loop body
    never runs, so a flag that is set leaves no stop notice.  And when the
    flag is set while a lookup is under way and that lookup raises an
    exception nothing catches, the loop never reaches the next term and no
    terminal message follows. *)
Lemma stop_flag_without_notice_or_done :
  (is_set stopped_at_once 0 = true
   /\ queue (run_api_search stopped_at_once diesel "outbound" "Client ID" [])
      = [DoneMsg []])
  /\ (is_set array_payload_stopped 0 = false
      /\ is_set array_payload_stopped 1 = true
      /\ uncaught (run_api_search array_payload_stopped diesel "outbound" "Client ID"
                     ["A1"; "A2"]%string) = Some TypeError
      /\ existsb is_done
           (queue (run_api_search array_payload_stopped diesel "outbound" "Client ID"
                     ["A1"; "A2"]%string)) = false
      /\ existsb (fun m => match m with
                           | LogMsg msg _ => String.eqb msg "Search stopped by user."
                           | DoneMsg _ => false
                           end)
           (queue (run_api_search array_payload_stopped diesel "outbound" "Client ID"
                     ["A1"; "A2"]%string)) = false).
Proof. repeat split. Qed.

(** C4, amended.  When the list is not empty and the stop flag is found set
    before the first term, the queue holds the stop notice and a terminal
    message with an empty batch.  When it is first found set before a later
    term, in a run that no uncaught exception ends, the loop stops there:
    the queue holds the messages of the terms handled so far, the stop
    notice, and the terminal message with exactly the records of those
    terms. *)
Theorem cancellation_keeps_handled_terms (w : world) (store : Store)
    (search_type search_field : string) (terms : list string) :
  (terms <> [] -> is_set w 0 = true ->
   run_api_search w store search_type search_field terms
   = {| queue := [stop_notice; DoneMsg []]; uncaught := None |})
  /\ (forall n,
        n < List.length terms ->
        (forall j, j < n -> is_set w j = false) ->
        is_set w n = true ->
        uncaught (run_api_search w store search_type search_field terms) = None ->
        queue (run_api_search w store search_type search_field terms)
        = messages_from w store search_type search_field (List.length terms) 0
                        (firstn n terms)
          ++ [stop_notice;
              DoneMsg (records_from w store search_type search_field 0 (firstn n terms))]
        /\ forallb is_log
             (messages_from w store search_type search_field (List.length terms) 0
                            (firstn n terms)) = true).
Proof.
  split.
  - destruct terms as [|term rest]; [congruence|].
    intros _ Hstop. unfold run_api_search. simpl. now rewrite Hstop.
  - intros n Hn Hbefore Hat Hdone.
    destruct (run_api_search_done w store search_type search_field terms Hdone)
      as (Hq & _).
    rewrite (handled_first w 0 terms n Hn Hbefore Hat) in Hq.
    apply Nat.ltb_lt in Hn. rewrite Hn in Hq.
    split; [exact Hq | apply messages_from_logs].
Qed.

Lemma cancellation_keeps_handled_terms_witness :
  (["A1"; "A2"]%string <> [] /\ is_set stopped_at_once 0 = true
   /\ run_api_search stopped_at_once diesel "outbound" "Client ID" ["A1"; "A2"]%string
      = {| queue := [stop_notice; DoneMsg []]; uncaught := None |})
  /\ (1 < List.length ["A1"; "A2"]%string
      /\ (forall j, j < 1 -> is_set stopped_after_first j = false)
      /\ is_set stopped_after_first 1 = true
      /\ uncaught (run_api_search stopped_after_first diesel "outbound" "Client ID"
                     ["A1"; "A2"]%string) = None
      /\ queue (run_api_search stopped_after_first diesel "outbound" "Client ID"
                  ["A1"; "A2"]%string)
         = messages_from stopped_after_first diesel "outbound" "Client ID" 2 0 ["A1"%string]
           ++ [stop_notice;
               DoneMsg (records_from stopped_after_first diesel "outbound" "Client ID" 0
                          ["A1"%string])]).
Proof.
  assert (Hbefore : forall j, j < 1 -> is_set stopped_after_first j = false).
  { intros j Hj. destruct j; [reflexivity | lia]. }
  split.
  - split; [discriminate|]. split; [reflexivity|].
    apply (proj1 (cancellation_keeps_handled_terms stopped_at_once diesel
                    "outbound" "Client ID" ["A1"; "A2"]%string));
      [discriminate | reflexivity].
  - split; [simpl; lia|]. split; [exact Hbefore|].
    split; [reflexivity|]. split; [reflexivity|].
    apply (proj2 (cancellation_keeps_handled_terms stopped_after_first diesel
                    "outbound" "Client ID" ["A1"; "A2"]%string) 1);
      [simpl; lia | exact Hbefore | reflexivity | reflexivity].
Defined.

Lemma process_term_unsuccessful_status (w : world) (store : Store)
    (search_type search_field : string) (index : nat) (term : string) (r : response) :
  requests_get w index (lookup_request w store search_type search_field index term)
  = Responds r ->
  status_code r <> 200%Z ->
  snd (process_term w store search_type search_field index term)
  = inl [placeholder term "Not Found" store].
Proof.
  unfold lookup_request, process_term, point_lookup, windowed_search.
  intros Hget Hstatus. apply Z.eqb_neq in Hstatus.
  destruct (is_point_lookup search_type search_field); rewrite Hget, Hstatus.
  - now destruct (status_code r =? 404)%Z.
  - reflexivity.
Qed.

(** C5, as stated, fails on the windowed search: there a 404 takes the
    branch of every status other than 200 and is logged at error level;
    no warning is put. *)
Lemma windowed_404_is_logged_as_error :
  is_point_lookup "inbound" "Client ID" = false
  /\ requests_get always_404 0
       (lookup_request always_404 diesel "inbound" "Client ID" 0 "X")
     = reply 404 VNull
  /\ term_messages always_404 diesel "inbound" "Client ID" 0 "X"
     = [LogMsg "GET https://storeapi.parcelninja.com/api/v1/inbounds ?search=X"
               (Some "DEBUG"%string);
        LogMsg "Error for 'X': HTTP 404" (Some "ERROR"%string)]
  /\ existsb (has_level "WARN")
       (term_messages always_404 diesel "inbound" "Client ID" 0 "X") = false
  /\ existsb (has_level "ERROR")
       (term_messages always_404 diesel "inbound" "Client ID" 0 "X") = true.
Proof. repeat split. Qed.

(** C5, amended.  A term whose lookup is answered 404 is left unsatisfied
    under either strategy: its only record is the placeholder.  On the
    point lookup a message at warning level is put and none at error
    level; on the windowed search the message is at error level and none
    is at warning level. *)
Theorem not_found_status_logging (w : world) (store : Store)
    (search_type search_field : string) (index : nat) (term : string) (r : response) :
  requests_get w index (lookup_request w store search_type search_field index term)
  = Responds r ->
  status_code r = 404%Z ->
  snd (process_term w store search_type search_field index term)
  = inl [placeholder term "Not Found" store]
  /\ (is_point_lookup search_type search_field = true ->
      term_messages w store search_type search_field index term
      = [LogMsg ("GET " ++ url (point_request store term)
                 ++ " [X-Client-Id: " ++ term ++ "]")%string (Some "DEBUG"%string);
         LogMsg ("Term '" ++ term ++ "' not found (404).")%string (Some "WARN"%string)]
      /\ existsb (has_level "WARN")
           (term_messages w store search_type search_field index term) = true
      /\ existsb (has_level "ERROR")
           (term_messages w store search_type search_field index term) = false)
  /\ (is_point_lookup search_type search_field = false ->
      term_messages w store search_type search_field index term
      = [LogMsg ("GET " ++ url (windowed_request store search_type term (utcnow w index))
                 ++ " ?search=" ++ term)%string (Some "DEBUG"%string);
         LogMsg ("Error for '" ++ term ++ "': HTTP 404")%string (Some "ERROR"%string)]
      /\ existsb (has_level "WARN")
           (term_messages w store search_type search_field index term) = false
      /\ existsb (has_level "ERROR")
           (term_messages w store search_type search_field index term) = true).
Proof.
  intros Hget Hstatus. split.
  - apply (process_term_unsuccessful_status _ _ _ _ _ _ r Hget). lia.
  - unfold lookup_request in Hget.
    unfold term_messages, process_term, point_lookup, windowed_search.
    split; intros Hp; rewrite Hp in *; rewrite Hget, Hstatus; simpl;
      repeat split.
Qed.

Lemma not_found_status_logging_witness :
  requests_get found_then_missing 1
    (lookup_request found_then_missing diesel "outbound" "Client ID" 1 "A2")
  = reply 404 VNull
  /\ status_code {| status_code := 404; text := ""; json := JsonValue VNull |} = 404%Z
  /\ snd (process_term found_then_missing diesel "outbound" "Client ID" 1 "A2")
     = inl [placeholder "A2" "Not Found" diesel]
  /\ existsb (has_level "WARN")
       (term_messages found_then_missing diesel "outbound" "Client ID" 1 "A2") = true
  /\ existsb (has_level "ERROR")
       (term_messages always_404 diesel "inbound" "Client ID" 0 "X") = true.
Proof.
  split; [reflexivity|]. split; [reflexivity|].
  destruct (not_found_status_logging found_then_missing diesel "outbound" "Client ID"
              1 "A2" {| status_code := 404; text := ""; json := JsonValue VNull |}
              eq_refl eq_refl) as (Hrec & Hpoint & _).
  destruct (not_found_status_logging always_404 diesel "inbound" "Client ID"
              0 "X" {| status_code := 404; text := ""; json := JsonValue VNull |}
              eq_refl eq_refl) as (_ & _ & Hwindowed).
  split; [exact Hrec|]. split.
  - exact (proj1 (proj2 (Hpoint eq_refl))).
  - exact (proj2 (proj2 (Hwindowed eq_refl))).
Defined.

(** C10, as stated, fails: a reason of the form 'Network Error: ...' is
    not kept for failures of the transport.  A request that is answered,
    with status 200 and a body that is not JSON, makes [response.json()]
    raise the decoding exception of [requests], which is a
    [requests.RequestException] too; the handler gives the term the reason
    'Network Error: ' followed by the decoder's text. *)
Lemma undecodable_body_is_network_error :
  requests_get undecodable_body 0
    (lookup_request undecodable_body diesel "outbound" "Client ID" 0 "A1")
  = Responds {| status_code := 200; text := "<html>Service unavailable</html>";
                json := JsonRaises (RequestException
                          "Expecting value: line 1 column 1 (char 0)") |}
  /\ snd (process_term undecodable_body diesel "outbound" "Client ID" 0 "A1")
     = inl [[("shipment_id_searched"%string, VStr "A1");
             ("status_error"%string,
              VStr "Network Error: Expecting value: line 1 column 1 (char 0)");
             ("_store_name"%string, VStr "Diesel")]]
  /\ term_messages undecodable_body diesel "outbound" "Client ID" 0 "A1"
     = [LogMsg "GET https://storeapi.parcelninja.com/api/v1/outbounds/0 [X-Client-Id: A1]"
               (Some "DEBUG"%string);
        LogMsg "Exception for 'A1': Expecting value: line 1 column 1 (char 0)"
               (Some "ERROR"%string)].
Proof. repeat split. Qed.

(** C10, amended.  A term answered with a status other than 200 (a 404 on
    the point lookup included), or with an empty result list by the
    windowed search, gets one record whose fields are the term under
    [shipment_id_searched], the text 'Not Found' under [status_error],
    whatever the status, and the store name under [_store_name].  A
    [requests.RequestException], raised by the request or while the body
    of a 200 answer is decoded, gives the same record with the reason
    'Network Error: ' followed by its text.  Any record list a lookup
    appends is made from a 200 payload or is one of these two records. *)
Theorem placeholder_reason (w : world) (store : Store)
    (search_type search_field : string) (index : nat) (term : string) :
  let req := lookup_request w store search_type search_field index term in
  let records := snd (process_term w store search_type search_field index term) in
  let synthetic := fun reason : string =>
    [[("shipment_id_searched"%string, VStr term);
      ("status_error"%string, VStr reason);
      ("_store_name"%string, VStr (name store))]] in
  (forall r, requests_get w index req = Responds r -> status_code r <> 200%Z ->
     records = inl (synthetic "Not Found"%string))
  /\ (forall r data,
        is_point_lookup search_type search_field = false ->
        requests_get w index req = Responds r -> status_code r = 200%Z ->
        json r = JsonValue (VDict data) ->
        truthy (dict_get data (search_type ++ "s")%string (VList [])) = false ->
        records = inl (synthetic "Not Found"%string))
  /\ (forall e, requests_get w index req = Raises (RequestException e) ->
        records = inl (synthetic ("Network Error: " ++ e)%string))
  /\ (forall r e, requests_get w index req = Responds r -> status_code r = 200%Z ->
        json r = JsonRaises (RequestException e) ->
        records = inl (synthetic ("Network Error: " ++ e)%string))
  /\ (forall appended, records = inl appended ->
        (exists r data,
           requests_get w index req = Responds r
           /\ status_code r = 200%Z /\ json r = JsonValue (VDict data)
           /\ ((is_point_lookup search_type search_field = true
                /\ appended = [dict_set data "_store_name" (VStr (name store))])
               \/ (is_point_lookup search_type search_field = false
                   /\ exists items,
                        dict_get data (search_type ++ "s")%string (VList [])
                        = VList (map VDict items)
                        /\ items <> []
                        /\ appended
                           = map (fun d => dict_set d "_store_name" (VStr (name store)))
                                 items)))
        \/ appended = synthetic "Not Found"%string
        \/ exists e, appended = synthetic ("Network Error: " ++ e)%string
                     /\ (requests_get w index req = Raises (RequestException e)
                         \/ exists r, requests_get w index req = Responds r
                                      /\ status_code r = 200%Z
                                      /\ json r = JsonRaises (RequestException e))).
Proof.
  intros req records synthetic. subst req records synthetic. cbv beta.
  change [("shipment_id_searched"%string, VStr term);
          ("status_error"%string, VStr "Not Found");
          ("_store_name"%string, VStr (name store))]
    with (placeholder term "Not Found" store).
  split; [intros r; apply process_term_unsuccessful_status|].
  unfold lookup_request, process_term, point_lookup, windowed_search.
  split; [|split; [|split]].
  - intros r data Hp Hget Hstatus Hjson Hempty.
    rewrite Hp in *. apply Z.eqb_eq in Hstatus.
    now rewrite Hget, Hstatus, Hjson, Hempty.
  - intros e Hget.
    destruct (is_point_lookup search_type search_field); now rewrite Hget.
  - intros r e Hget Hstatus Hjson. apply Z.eqb_eq in Hstatus.
    destruct (is_point_lookup search_type search_field);
      now rewrite Hget, Hstatus, Hjson.
  - intros appended.
    destruct (is_point_lookup search_type search_field).
    + destruct (requests_get w index (point_request store term)) as [r|e].
      * destruct (status_code r =? 200)%Z eqn:H200.
        -- apply Z.eqb_eq in H200.
           destruct (json r) as [data|e] eqn:Hjson.
           ++ destruct data as [ | | | | | |data]; simpl; try discriminate.
              intros [= <-]. left. exists r, data.
              split; [reflexivity|]. split; [assumption|]. split; [assumption|].
              left. now split.
           ++ destruct e; simpl; try discriminate.
              intros [= <-]. right. right. eexists. split; [reflexivity|].
              right. eauto.
        -- destruct (status_code r =? 404)%Z; simpl; intros [= <-]; right; now left.
      * destruct e; simpl; try discriminate.
        intros [= <-]. right. right. eexists. split; [reflexivity | now left].
    + destruct (requests_get w index _) as [r|e].
      * destruct (status_code r =? 200)%Z eqn:H200.
        -- apply Z.eqb_eq in H200.
           destruct (json r) as [data|e] eqn:Hjson.
           ++ destruct data as [ | | | | | |data]; try (simpl; discriminate).
              destruct (truthy (dict_get data (search_type ++ "s")%string (VList [])))
                eqn:Htruthy; [|simpl; intros [= <-]; right; now left].
              destruct (dict_get data (search_type ++ "s")%string (VList []))
                as [ | | | | |items| ] eqn:Hfound; try (simpl; discriminate).
              destruct (tag_items items store) as [tagged|e] eqn:Htag;
                [|apply tag_items_inr in Htag as ->; simpl; discriminate].
              simpl. intros [= <-].
              apply tag_items_inl in Htag as (ds & -> & ->).
              left. exists r, data.
              split; [reflexivity|]. split; [assumption|]. split; [assumption|].
              right. split; [reflexivity|].
              exists ds. split; [exact Hfound|]. split; [|reflexivity].
              intros ->. discriminate.
           ++ destruct e; simpl; try discriminate.
              intros [= <-]. right. right. eexists. split; [reflexivity|].
              right. eauto.
        -- simpl. intros [= <-]. right. now left.
      * destruct e; simpl; try discriminate.
        intros [= <-]. right. right. eexists. split; [reflexivity | now left].
Qed.

Lemma placeholder_reason_witness :
  (requests_get always_404 0
     (lookup_request always_404 diesel "inbound" "Client ID" 0 "X") = reply 404 VNull
   /\ 404%Z <> 200%Z
   /\ snd (process_term always_404 diesel "inbound" "Client ID" 0 "X")
      = inl [[("shipment_id_searched"%string, VStr "X");
              ("status_error"%string, VStr "Not Found");
              ("_store_name"%string, VStr "Diesel")]])
  /\ (requests_get inbound_world 1
        (lookup_request inbound_world diesel "inbound" "Client ID" 1 "Y")
      = reply 200 (VDict [("inbounds"%string, VList [])])
      /\ snd (process_term inbound_world diesel "inbound" "Client ID" 1 "Y")
         = inl [[("shipment_id_searched"%string, VStr "Y");
                 ("status_error"%string, VStr "Not Found");
                 ("_store_name"%string, VStr "Diesel")]])
  /\ (requests_get inbound_world 2
        (lookup_request inbound_world diesel "inbound" "Client ID" 2 "Z")
      = Raises (RequestException "timed out")
      /\ snd (process_term inbound_world diesel "inbound" "Client ID" 2 "Z")
         = inl [[("shipment_id_searched"%string, VStr "Z");
                 ("status_error"%string, VStr "Network Error: timed out");
                 ("_store_name"%string, VStr "Diesel")]])
  /\ (requests_get undecodable_body 0
        (lookup_request undecodable_body diesel "inbound" "Client ID" 0 "X")
      = Responds {| status_code := 200; text := "<html>Service unavailable</html>";
                    json := JsonRaises (RequestException
                              "Expecting value: line 1 column 1 (char 0)") |}
      /\ snd (process_term undecodable_body diesel "inbound" "Client ID" 0 "X")
         = inl [[("shipment_id_searched"%string, VStr "X");
                 ("status_error"%string,
                  VStr "Network Error: Expecting value: line 1 column 1 (char 0)");
                 ("_store_name"%string, VStr "Diesel")]]).
Proof.
  split; [|split; [|split]].
  - split; [reflexivity|]. split; [discriminate|].
    apply (proj1 (placeholder_reason always_404 diesel "inbound" "Client ID" 0 "X")
             {| status_code := 404; text := ""; json := JsonValue VNull |});
      [reflexivity | discriminate].
  - split; [reflexivity|].
    apply (proj1 (proj2 (placeholder_reason inbound_world diesel "inbound" "Client ID"
                           1 "Y"))
             {| status_code := 200; text := "";
                json := JsonValue (VDict [("inbounds"%string, VList [])]) |}
             [("inbounds"%string, VList [])]); reflexivity.
  - split; [reflexivity|].
    apply (proj1 (proj2 (proj2 (placeholder_reason inbound_world diesel "inbound"
                                  "Client ID" 2 "Z"))) "timed out"%string).
    reflexivity.
  - split; [reflexivity|].
    apply (proj1 (proj2 (proj2 (proj2 (placeholder_reason undecodable_body diesel
                                         "inbound" "Client ID" 0 "X"))))
             {| status_code := 200; text := "<html>Service unavailable</html>";
                json := JsonRaises (RequestException
                          "Expecting value: line 1 column 1 (char 0)") |}
             "Expecting value: line 1 column 1 (char 0)"%string); reflexivity.
Defined.

(** C2: the query of the windowed search has the four parameters
    [startDate], [endDate], [search] and [pageSize] and no other, whatever
    the field; the date window ends at the current day and starts 730 days
    before.  The name looked up for the field ('channelId' for
    'Channel ID') is not among them. *)
Theorem windowed_query_has_no_field_parameter :
  (forall store search_type term end_date,
     params (windowed_request store search_type term end_date)
     = [("startDate"%string, PStr (strftime_Ymd (end_date - 730)));
        ("endDate"%string, PStr (strftime_Ymd end_date));
        ("search"%string, PStr term);
        ("pageSize"%string, PInt 100)])
  /\ api_search_field "Channel ID" = "channelId"%string
  /\ is_point_lookup "outbound" "Channel ID" = false
  /\ lookup_request found_then_missing diesel "outbound" "Channel ID" 0 "X"
     = windowed_request diesel "outbound" "X" 739923
  /\ params (windowed_request diesel "outbound" "X" 739923)
     = [("startDate"%string, PStr "20241103"); ("endDate"%string, PStr "20261103");
        ("search"%string, PStr "X"); ("pageSize"%string, PInt 100)]
  /\ ~ In "channelId"%string
        (map fst (params (windowed_request diesel "outbound" "X" 739923))).
Proof.
  repeat split. simpl. intros [H|[H|[H|[H|[]]]]]; discriminate.
Qed.

(** ** Ordering of column names *)

Lemma compare_as_OT (s t : string) : String.compare s t = String_as_OT.compare s t.
Proof.
  revert t. induction s as [|a s IH]; destruct t as [|b t]; reflexivity.
Qed.

Lemma str_lt_trans (a b c : string) : str_lt a b -> str_lt b c -> str_lt a c.
Proof.
  unfold str_lt. rewrite !compare_as_OT.
  apply (@StrictOrder_Transitive _ _ String_as_OT.lt_strorder).
Qed.

Lemma str_lt_irrefl (a : string) : ~ str_lt a a.
Proof.
  unfold str_lt. rewrite compare_as_OT.
  apply (@StrictOrder_Irreflexive _ _ String_as_OT.lt_strorder).
Qed.

Lemma leb_true_cases (x y : string) : String.leb x y = true -> x = y \/ str_lt x y.
Proof.
  unfold String.leb, str_lt. destruct (String.compare x y) eqn:E; try discriminate.
  - left. now apply String.compare_eq_iff.
  - now right.
Qed.

Lemma leb_false_lt (x y : string) : String.leb x y = false -> str_lt y x.
Proof.
  unfold String.leb, str_lt. rewrite (String.compare_antisym y x).
  now destruct (String.compare x y).
Qed.

Lemma insert_sorted_In (x : string) (l : list string) (k : string) :
  In k (insert_sorted x l) <-> k = x \/ In k l.
Proof.
  induction l as [|y rest IH]; simpl.
  - intuition.
  - destruct (String.leb x y); simpl; [intuition|]. rewrite IH. intuition.
Qed.

Lemma insert_sorted_sorted (x : string) (l : list string) :
  ~ In x l -> StronglySorted str_lt l -> StronglySorted str_lt (insert_sorted x l).
Proof.
  induction l as [|y rest IH]; simpl; intros Hx Hs.
  - repeat constructor.
  - inversion Hs as [|? ? Hrest Hy]; subst.
    destruct (String.leb x y) eqn:E.
    + apply leb_true_cases in E as [->|Hlt]; [exfalso; apply Hx; now left|].
      constructor; [assumption|]. constructor; [assumption|].
      rewrite Forall_forall in *. intros z Hz. eapply str_lt_trans; eauto.
    + apply leb_false_lt in E. constructor.
      * apply IH; [intros Hin; apply Hx; now right | assumption].
      * rewrite Forall_forall in *. intros z Hz.
        apply insert_sorted_In in Hz as [->|Hz]; auto.
Qed.

Lemma sorted_In (l : list string) (k : string) : In k (sorted l) <-> In k l.
Proof.
  induction l as [|x rest IH]; simpl; [tauto|].
  rewrite insert_sorted_In, IH. intuition.
Qed.

Lemma sorted_StronglySorted (l : list string) :
  NoDup l -> StronglySorted str_lt (sorted l).
Proof.
  induction l as [|x rest IH]; simpl; intros Hnd; [constructor|].
  inversion Hnd; subst. apply insert_sorted_sorted; [|auto].
  now rewrite sorted_In.
Qed.

Lemma StronglySorted_NoDup (l : list string) : StronglySorted str_lt l -> NoDup l.
Proof.
  induction 1 as [|x l Hs IH Hall]; constructor; [|assumption].
  intros Hin. rewrite Forall_forall in Hall. apply (str_lt_irrefl x). auto.
Qed.

(** Two strictly increasing lists with the same members are the same list. *)
Lemma StronglySorted_unique (l1 l2 : list string) :
  StronglySorted str_lt l1 -> StronglySorted str_lt l2 ->
  (forall k, In k l1 <-> In k l2) -> l1 = l2.
Proof.
  intros H1. revert l2. induction H1 as [|x l1 Hs1 IH Hall1]; intros l2 H2 Hsame.
  - destruct l2 as [|y l2]; [reflexivity|]. exfalso. apply (Hsame y). now left.
  - destruct H2 as [|y l2 Hs2 Hall2]; [exfalso; apply (Hsame x); now left|].
    rewrite Forall_forall in Hall1, Hall2.
    assert (x = y) as ->.
    { destruct (proj1 (Hsame x) (or_introl eq_refl)) as [E|Hx]; [now symmetry|].
      destruct (proj2 (Hsame y) (or_introl eq_refl)) as [E|Hy]; [assumption|].
      exfalso. apply (str_lt_irrefl x). eapply str_lt_trans; eauto. }
    f_equal. apply IH; [assumption|].
    intros k. split; intros Hk.
    + destruct (proj1 (Hsame k) (or_intror Hk)) as [<-|]; [|assumption].
      exfalso. apply (str_lt_irrefl y). auto.
    + destruct (proj2 (Hsame k) (or_intror Hk)) as [<-|]; [|assumption].
      exfalso. apply (str_lt_irrefl y). auto.
Qed.

(** ** Header sets *)

Lemma fold_set_add_In (l : list string) (s : set string) (k : string) :
  In k (fold_left (fun s k => set_add string_dec k s) l s) <-> In k s \/ In k l.
Proof.
  revert s. induction l as [|x rest IH]; intros s; simpl; [tauto|].
  rewrite IH, set_add_iff. intuition.
Qed.

Lemma fold_set_add_NoDup (l : list string) (s : set string) :
  NoDup s -> NoDup (fold_left (fun s k => set_add string_dec k s) l s).
Proof.
  revert s. induction l as [|x rest IH]; intros s Hs; simpl; [assumption|].
  apply IH. now apply set_add_nodup.
Qed.

Lemma table_header_set_In (flat : list dict) (k : string) :
  In k (table_header_set flat)
  <-> k = "Store"%string \/ exists record, In record flat /\ In k (keys record).
Proof.
  unfold table_header_set.
  assert (forall s, In k (fold_left
            (fun s record => fold_left (fun s k => set_add string_dec k s) (keys record) s)
            flat s)
          <-> In k s \/ exists record, In record flat /\ In k (keys record)) as H.
  { induction flat as [|r rest IH]; intros s; simpl.
    - split; [now left | intros [H|(r & [] & _)]; assumption].
    - rewrite IH, fold_set_add_In. split.
      + intros [[H|H]|(r' & Hr' & Hk)]; eauto 6.
      + intros [H|(r' & [<-|Hr'] & Hk)]; eauto 6. }
  rewrite H. simpl. intuition.
Qed.

Lemma table_header_set_NoDup (flat : list dict) : NoDup (table_header_set flat).
Proof.
  unfold table_header_set.
  assert (forall s, NoDup s ->
            NoDup (fold_left
              (fun s record => fold_left (fun s k => set_add string_dec k s) (keys record) s)
              flat s)) as H.
  { induction flat as [|r rest IH]; intros s Hs; simpl; [assumption|].
    apply IH. now apply fold_set_add_NoDup. }
  apply H. apply set_add_nodup. constructor.
Qed.

Lemma export_header_set_In (flat : list dict) (k : string) :
  In k (export_header_set flat)
  <-> k <> "Store"%string /\ exists record, In record flat /\ In k (keys record).
Proof.
  unfold export_header_set. rewrite fold_set_add_In, filter_In, in_flat_map.
  rewrite negb_true_iff. simpl. split.
  - intros [[]|[Hex Hne]]. split; [|exact Hex].
    intros ->. now rewrite String.eqb_refl in Hne.
  - intros [Hne Hex]. right. split; [exact Hex|]. now apply String.eqb_neq.
Qed.

Lemma export_header_set_NoDup (flat : list dict) : NoDup (export_header_set flat).
Proof. apply fold_set_add_NoDup. constructor. Qed.

(** The table and the export compute the same column list. *)
Lemma sorted_headers_all_headers (flat : list dict) :
  sorted_headers flat = all_headers flat.
Proof.
  unfold sorted_headers, all_headers. f_equal.
  apply StronglySorted_unique.
  - apply sorted_StronglySorted, NoDup_filter, table_header_set_NoDup.
  - apply sorted_StronglySorted, export_header_set_NoDup.
  - intros k. rewrite !sorted_In, filter_In, table_header_set_In,
      export_header_set_In, negb_true_iff, String.eqb_neq.
    intuition.
Qed.

Lemma all_headers_In (flat : list dict) (record : dict) (k : string) :
  In record flat -> In k (keys record) -> In k (all_headers flat).
Proof.
  intros Hr Hk. unfold all_headers.
  destruct (string_dec k "Store") as [->|Hne]; [now left|].
  right. apply sorted_In, export_header_set_In. eauto.
Qed.

Lemma filter_none {A : Type} (f : A -> bool) (l : list A) :
  (forall x, In x l -> f x = false) -> filter f l = [].
Proof.
  induction l as [|x rest IH]; intros H; simpl; [reflexivity|].
  rewrite (H x (or_introl eq_refl)). apply IH. intros y Hy. apply H. now right.
Qed.

(** No flat record has a field outside the header, so the writer never
    refuses a row. *)
Lemma dict_to_list_all_headers (flat : list dict) (record : dict) :
  In record flat ->
  dict_to_list (all_headers flat) record = inl (row_values (all_headers flat) record).
Proof.
  intros Hr. unfold dict_to_list. rewrite filter_none; [reflexivity|].
  intros k Hk. apply negb_false_iff, existsb_eqb_In.
  now apply all_headers_In with record.
Qed.

Lemma writerows_all_headers (names : list string) (flat : list dict) :
  (forall record, In record flat -> dict_to_list names record = inl (row_values names record)) ->
  writerows names flat = (map (row_values names) flat, None).
Proof.
  induction flat as [|r rest IH]; intros H; simpl; [reflexivity|].
  rewrite (H r (or_introl eq_refl)), IH; [reflexivity|].
  intros r' Hr'. apply H. now right.
Qed.

(** ** Claims about the table and the export *)

(** C6, as stated, fails on the empty batch: the table is left without any
    column, so 'Store' is not its first column. *)
Lemma empty_batch_has_no_columns :
  columns (update_results_table sample_dumps []) = []
  /\ ~ (exists others,
          columns (update_results_table sample_dumps []) = "Store"%string :: others).
Proof. split; [reflexivity|]. intros (others & H). discriminate. Qed.

(** C6, amended.  For a batch that is not empty, the column list of the
    table is 'Store' followed by the other field names found in any flat
    record, in strictly increasing order, so without repetition; a row has,
    for each column, the value of that field in its record or the empty
    text when the record lacks it, and the rows follow the order of the
    batch.  The export computes the same header and the same cells, and its
    writer raises no error. *)
Theorem projection_columns_and_rows (json_dumps : list value -> string)
    (results : list dict) :
  results <> [] ->
  let flat := flat_results json_dumps results in
  let t := update_results_table json_dumps results in
  exists others,
    columns t = "Store"%string :: others
    /\ StronglySorted str_lt others
    /\ NoDup (columns t)
    /\ (forall k, In k others
                  <-> k <> "Store"%string
                      /\ exists record, In record flat /\ In k (keys record))
    /\ rows t = map (fun record =>
                       (map (fun col => dict_get record col (VStr "")) (columns t),
                        row_tag record)) flat
    /\ all_headers flat = columns t
    /\ writerows (all_headers flat) flat = (map fst (rows t), None)
    /\ forall a chosen,
         results_data a = results -> chosen <> ""%string ->
         snd (export_to_csv json_dumps a chosen None) = None
         /\ files (fst (export_to_csv json_dumps a chosen None))
            = files a ++ [{| path := chosen; fieldnames := columns t;
                             written := map fst (rows t) |}].
Proof.
  intros Hne flat t.
  assert (Ht : t = {| columns := sorted_headers flat;
                      heading := map (fun col => (col, col)) (sorted_headers flat);
                      width := map (fun col => (col, column_width col))
                                   (sorted_headers flat);
                      rows := map (fun record =>
                                     (row_values (sorted_headers flat) record,
                                      row_tag record)) flat |}).
  { subst t flat. unfold update_results_table. destruct results; [congruence|reflexivity]. }
  assert (Hsorted : StronglySorted str_lt
            (sorted (filter (fun h => negb (String.eqb h "Store")) (table_header_set flat))))
    by apply sorted_StronglySorted, NoDup_filter, table_header_set_NoDup.
  assert (Hmem : forall k,
            In k (sorted (filter (fun h => negb (String.eqb h "Store"))
                                 (table_header_set flat)))
            <-> k <> "Store"%string
                /\ exists record, In record flat /\ In k (keys record)).
  { intros k. rewrite sorted_In, filter_In, table_header_set_In, negb_true_iff,
      String.eqb_neq. intuition. }
  assert (Hrows : writerows (all_headers flat) flat = (map fst (rows t), None)).
  { rewrite writerows_all_headers by (intros r; apply dict_to_list_all_headers).
    rewrite Ht. cbn [rows]. rewrite map_map. cbn [fst].
    now rewrite sorted_headers_all_headers. }
  exists (sorted (filter (fun h => negb (String.eqb h "Store")) (table_header_set flat))).
  rewrite Ht in *. cbn [columns rows] in *.
  split; [reflexivity|]. split; [exact Hsorted|]. split.
  { constructor; [|now apply StronglySorted_NoDup].
    intros Hin. apply Hmem in Hin. now destruct Hin. }
  split; [exact Hmem|]. split; [reflexivity|].
  split; [symmetry; apply sorted_headers_all_headers|].
  split; [exact Hrows|].
  intros a chosen Ha Hchosen. unfold export_to_csv. rewrite Ha.
  destruct results as [|r0 rest]; [congruence|].
  apply String.eqb_neq in Hchosen. rewrite Hchosen.
  fold flat. rewrite Hrows. cbn [fst snd files add_file log messagebox].
  now rewrite sorted_headers_all_headers.
Qed.

Lemma projection_columns_and_rows_witness :
  two_records <> []
  /\ columns (update_results_table sample_dumps two_records)
     = ["Store"; "a.b"; "shipment_id_searched"; "status_error"]%string
  /\ map fst (rows (update_results_table sample_dumps two_records))
     = [[VStr "Diesel"; VInt 5; VStr ""; VStr ""];
        [VStr "Diesel"; VStr ""; VStr "A2"; VStr "Not Found"]]
  /\ exists others,
       columns (update_results_table sample_dumps two_records) = "Store"%string :: others
       /\ StronglySorted str_lt others.
Proof.
  split; [discriminate|]. split; [reflexivity|]. split; [reflexivity|].
  destruct (projection_columns_and_rows sample_dumps two_records) as (others & H1 & H2 & _).
  - discriminate.
  - exists others. split; assumption.
Defined.

(** C9.  With no stored results the export writes no file: it shows the
    information dialog 'There is no data to export.' and returns; no error
    dialog is shown, nothing is logged and no exception leaves the method,
    whatever the save dialog and the file system would have answered. *)
Theorem export_of_empty_batch (json_dumps : list value -> string) (a : app)
    (chosen : string) (open_error : option string) :
  results_data a = [] ->
  export_to_csv json_dumps a chosen open_error
  = (messagebox a showinfo "No Data" "There is no data to export.", None)
  /\ files (fst (export_to_csv json_dumps a chosen open_error)) = files a
  /\ dialogs (fst (export_to_csv json_dumps a chosen open_error))
     = dialogs a ++ [{| kind := showinfo; title := "No Data";
                        body := "There is no data to export." |}]
  /\ log_text (fst (export_to_csv json_dumps a chosen open_error)) = log_text a
  /\ results_data (fst (export_to_csv json_dumps a chosen open_error)) = []
  /\ tree (fst (export_to_csv json_dumps a chosen open_error)) = tree a.
Proof.
  intros Hempty. unfold export_to_csv. rewrite Hempty. simpl.
  repeat split. exact Hempty.
Qed.

Lemma export_of_empty_batch_witness :
  results_data blank_app = []
  /\ export_to_csv sample_dumps blank_app "out.csv" (Some "Permission denied"%string)
     = (messagebox blank_app showinfo "No Data" "There is no data to export.", None)
  /\ files (fst (export_to_csv sample_dumps blank_app "out.csv"
                   (Some "Permission denied"%string))) = files blank_app.
Proof.
  split; [reflexivity|].
  destruct (export_of_empty_batch sample_dumps blank_app "out.csv"
              (Some "Permission denied"%string) eq_refl) as (H1 & H2 & _).
  split; assumption.
Defined.

(** ** Claims about [start_search] *)

(** A blank entry is refused: a warning is shown and nothing else changes. *)
Lemma start_search_blank (a : app) :
  strip (search_term_var a) = ""%string ->
  start_search a
  = messagebox a showwarning "Input Required" "Please enter one or more search terms.".
Proof. intros H. unfold start_search. now rewrite H, String.eqb_refl. Qed.

(** Any other entry, with a known store, clears the stored results and
    starts a worker on the parsed terms, however many there are. *)
Lemma start_search_spawns (a : app) (selected_store : Store) :
  strip (search_term_var a) <> ""%string ->
  find_store (stores a) (store_var a) = Some selected_store ->
  threads (start_search a)
  = threads a ++ [{| thread_store := selected_store;
                     thread_search_type := lower (search_type_var a);
                     thread_search_field := search_field_var a;
                     thread_terms := parse_terms (search_term_var a) |}]
  /\ results_data (start_search a) = []
  /\ rows (tree (start_search a)) = []
  /\ is_searching (start_search a) = true
  /\ dialogs (start_search a) = dialogs a.
Proof.
  intros Hraw Hstore. unfold start_search.
  apply String.eqb_neq in Hraw. rewrite Hraw, Hstore. simpl. repeat split.
Qed.

(** C8: an entry made of a comma alone passes the blank check although it
    has no term; the stored results and the rows are cleared, the window
    enters the searching state and a worker is started on the empty list,
    and no dialog refuses the request. *)
Theorem separator_only_entry_starts_search :
  let a := app_with "," two_records in
  parse_terms (search_term_var a) = []
  /\ results_data a = two_records
  /\ rows (tree a) <> []
  /\ threads a = []
  /\ threads (start_search a)
     = [{| thread_store := diesel; thread_search_type := "outbound";
           thread_search_field := "Client ID"; thread_terms := [] |}]
  /\ results_data (start_search a) = []
  /\ rows (tree (start_search a)) = []
  /\ is_searching (start_search a) = true
  /\ dialogs (start_search a) = []
  /\ queue (run_api_search found_then_missing diesel "outbound" "Client ID" [])
     = [DoneMsg []].
Proof. repeat split. discriminate. Qed.

(** ** Supporting facts *)

(** A lookup is ended by an uncaught exception only on a payload of an
    unexpected shape or on an exception of another class: every answer
    with a status other than 200, every [requests.RequestException] and
    every 200 payload of the shape the remote interface describes is
    handled. *)
Lemma faults_false (w : world) (store : Store) (search_type search_field : string)
    (index : nat) (term : string) :
  let req := lookup_request w store search_type search_field index term in
  (forall e, requests_get w index req = Raises (RequestException e) ->
     faults w store search_type search_field index term = false)
  /\ (forall r, requests_get w index req = Responds r -> status_code r <> 200%Z ->
        faults w store search_type search_field index term = false)
  /\ (forall r e, requests_get w index req = Responds r ->
        json r = JsonRaises (RequestException e) ->
        faults w store search_type search_field index term = false)
  /\ (forall r data, requests_get w index req = Responds r ->
        json r = JsonValue (VDict data) ->
        is_point_lookup search_type search_field = true ->
        faults w store search_type search_field index term = false)
  /\ (forall r data items, requests_get w index req = Responds r ->
        json r = JsonValue (VDict data) ->
        dict_get data (search_type ++ "s")%string (VList []) = VList (map VDict items) ->
        faults w store search_type search_field index term = false).
Proof.
  intros req. subst req.
  unfold faults, lookup_request, process_term, point_lookup, windowed_search.
  repeat split.
  - intros e H. destruct (is_point_lookup search_type search_field); now rewrite H.
  - intros r H Hs. apply Z.eqb_neq in Hs.
    destruct (is_point_lookup search_type search_field); rewrite H, Hs;
      [now destruct (status_code r =? 404)%Z | reflexivity].
  - intros r e H Hj.
    destruct (is_point_lookup search_type search_field); rewrite H, Hj;
      destruct (status_code r =? 200)%Z; try reflexivity;
      now destruct (status_code r =? 404)%Z.
  - intros r data H Hj Hp. rewrite Hp in *. rewrite H, Hj.
    destruct (status_code r =? 200)%Z; [reflexivity|].
    now destruct (status_code r =? 404)%Z.
  - intros r data items H Hj Hitems.
    destruct (is_point_lookup search_type search_field); rewrite H, Hj.
    + destruct (status_code r =? 200)%Z; [reflexivity|].
      now destruct (status_code r =? 404)%Z.
    + destruct (status_code r =? 200)%Z; [|reflexivity].
      rewrite Hitems, tag_items_map. now destruct items.
Qed.

(** The window after a run that was stopped before its first term: the
    batch it receives is empty and the table is left without columns. *)
Lemma stopped_run_leaves_empty_table :
  let run := run_api_search stopped_at_once diesel "outbound" "Client ID"
               ["A1"; "A2"]%string in
  let a := process_api_queue sample_dumps (start_search (app_with "A1,A2" two_records))
             (queue run) in
  results_data a = []
  /\ columns (tree a) = []
  /\ is_searching a = false
  /\ export_button a = disabled
  /\ log_text a
     = [("INFO", "Starting search in store 'Diesel' (7b0fb2ac-51bd-47ea-847e-cfb1584b4aa2)");
        ("INFO", "Type: outbound, Field: Client ID, Terms: 2");
        ("WARN", "Search stopped by user.");
        ("INFO", "Search Finished. Total rows: 0")]%string.
Proof. repeat split. Qed.

(** * Further properties *)

(** ** Parsing the term entry *)

Lemma lstrip_empty (s : string) :
  lstrip s = ""%string <-> all_chars is_space s = true.
Proof.
  induction s as [|c s IH]; simpl; [tauto|].
  destruct (is_space c); simpl; [exact IH|]. split; discriminate.
Qed.

Lemma rstrip_empty (s : string) :
  rstrip s = ""%string <-> all_chars is_space s = true.
Proof.
  induction s as [|c s IH]; simpl; [tauto|].
  destruct (is_space c); simpl.
  - destruct (String.eqb_spec (rstrip s) "") as [E|E].
    + split; [intros _; now apply IH | reflexivity].
    + split; [discriminate | intros H; apply IH in H; contradiction].
  - split; discriminate.
Qed.

Lemma all_chars_lstrip p (s : string) :
  all_chars p s = true -> all_chars p (lstrip s) = true.
Proof.
  induction s as [|c s IH]; simpl; [auto|].
  rewrite andb_true_iff. intros [Hc Hs].
  destruct (is_space c); [auto|]. simpl. now rewrite Hc, Hs.
Qed.

Lemma all_chars_rstrip p (s : string) :
  all_chars p s = true -> all_chars p (rstrip s) = true.
Proof.
  induction s as [|c s IH]; simpl; [auto|].
  rewrite andb_true_iff. intros [Hc Hs].
  destruct (is_space c && String.eqb (rstrip s) ""); [reflexivity|].
  simpl. now rewrite Hc, IH.
Qed.

Lemma all_chars_strip p (s : string) :
  all_chars p s = true -> all_chars p (strip s) = true.
Proof. intros H. now apply all_chars_rstrip, all_chars_lstrip. Qed.

Lemma rstrip_idem (s : string) : rstrip (rstrip s) = rstrip s.
Proof.
  induction s as [|c s IH]; simpl; [reflexivity|].
  destruct (is_space c && String.eqb (rstrip s) "") eqn:E; [reflexivity|].
  simpl. now rewrite IH, E.
Qed.

Lemma lstrip_fixed (s : string) :
  match s with ""%string => True | String c _ => is_space c = false end ->
  lstrip s = s.
Proof. destruct s as [|c s]; simpl; [reflexivity|]. now intros ->. Qed.

Lemma lstrip_head (s : string) :
  match lstrip s with ""%string => True | String c _ => is_space c = false end.
Proof.
  induction s as [|c s IH]; simpl; [exact I|].
  destruct (is_space c) eqn:E; [exact IH | exact E].
Qed.

Lemma rstrip_head (s : string) :
  match s with ""%string => True | String c _ => is_space c = false end ->
  match rstrip s with ""%string => True | String c _ => is_space c = false end.
Proof.
  destruct s as [|c s]; simpl; [auto|]. intros Hc. rewrite Hc. simpl. exact Hc.
Qed.

Lemma strip_idem (s : string) : strip (strip s) = strip s.
Proof.
  unfold strip. rewrite lstrip_fixed by apply rstrip_head, lstrip_head.
  apply rstrip_idem.
Qed.

Lemma strip_empty (s : string) : strip s = ""%string <-> all_chars is_space s = true.
Proof.
  unfold strip. rewrite rstrip_empty. split.
  - intros H. induction s as [|c s IH]; simpl in *; [reflexivity|].
    destruct (is_space c) eqn:E; simpl; [auto|].
    simpl in H. now rewrite E in H.
  - apply all_chars_lstrip.
Qed.

Lemma re_split_not_nil (s : string) : re_split s <> [].
Proof.
  induction s as [|c s IH]; simpl; [discriminate|].
  destruct (is_separator c); [discriminate|].
  destruct (re_split s); [contradiction | discriminate].
Qed.

Lemma re_split_pieces p (s : string) :
  (forall c, is_separator c = false -> In c (list_ascii_of_string s) -> p c = true) ->
  Forall (fun piece => all_chars p piece = true) (re_split s).
Proof.
  induction s as [|c s IH]; simpl; intros H.
  - repeat constructor.
  - assert (Hs : Forall (fun piece => all_chars p piece = true) (re_split s))
      by (apply IH; intros c' Hc' Hin; apply H; auto).
    destruct (is_separator c) eqn:E.
    + constructor; [reflexivity | exact Hs].
    + destruct (re_split s) as [|piece pieces]; [repeat constructor|].
      * simpl. rewrite H; auto.
      * inversion Hs; subst. constructor; [|assumption].
        simpl. rewrite H; auto.
Qed.

Lemma re_split_free (s : string) :
  Forall (fun piece => all_chars (fun c => negb (is_separator c)) piece = true)
         (re_split s).
Proof. apply re_split_pieces. intros c Hc _. now rewrite Hc. Qed.

Lemma all_chars_In p (s : string) :
  all_chars p s = true <-> forall c, In c (list_ascii_of_string s) -> p c = true.
Proof.
  induction s as [|c s IH]; simpl.
  - split; [intros _ c [] | reflexivity].
  - rewrite andb_true_iff, IH. split.
    + intros [Hc Hs] c' [<-|Hin]; auto.
    + intros H. split; [apply H; now left | intros c' Hin; apply H; now right].
Qed.

(** X1.  Every term the entry is parsed into is usable as it is: it is not
    empty, has no white space at either end, and holds neither a comma nor
    a newline. *)
Theorem parsed_terms_are_clean (raw : string) :
  Forall (fun term => clean_term term = true) (parse_terms raw).
Proof.
  unfold parse_terms. apply Forall_forall. intros term Hin.
  apply in_map_iff in Hin as (piece & <- & Hpiece).
  apply filter_In in Hpiece as [Hpiece Hkept].
  pose proof (re_split_free raw) as Hfree. rewrite Forall_forall in Hfree.
  unfold clean_term. rewrite Hkept, strip_idem, String.eqb_refl. simpl.
  apply all_chars_strip. now apply Hfree.
Qed.

Lemma re_split_one (t : string) :
  all_chars (fun c => negb (is_separator c)) t = true -> re_split t = [t].
Proof.
  induction t as [|c t IH]; simpl; [reflexivity|].
  rewrite andb_true_iff, negb_true_iff. intros [Hc Ht].
  now rewrite Hc, IH.
Qed.

Lemma re_split_app (t rest : string) (c : ascii) :
  all_chars (fun c => negb (is_separator c)) t = true ->
  is_separator c = true ->
  re_split (t ++ String c rest) = t :: re_split rest.
Proof.
  intros Ht Hc. induction t as [|a t IH]; simpl.
  - now rewrite Hc.
  - simpl in Ht. rewrite andb_true_iff, negb_true_iff in Ht. destruct Ht as [Ha Ht].
    now rewrite Ha, IH.
Qed.

Lemma re_split_concat (c : ascii) (terms : list string) :
  is_separator c = true ->
  Forall (fun term => clean_term term = true) terms ->
  terms <> [] ->
  re_split (String.concat (String c "") terms) = terms.
Proof.
  intros Hc Hclean. induction Hclean as [|t rest Ht Hrest IH]; intros Hne;
    [congruence|].
  unfold clean_term in Ht. rewrite !andb_true_iff in Ht. destruct Ht as [_ Hfree].
  destruct rest as [|t' rest'].
  - simpl. now apply re_split_one.
  - change (String.concat (String c "") (t :: t' :: rest'))
      with (t ++ String c (String.concat (String c "") (t' :: rest')))%string.
    rewrite re_split_app by assumption. f_equal. apply IH. discriminate.
Qed.

(** X2.  Joining clean terms with commas (or with newlines) and parsing the
    text gives the terms back, in order and with their repetitions. *)
Theorem parse_terms_of_joined (c : ascii) (terms : list string) :
  is_separator c = true ->
  Forall (fun term => clean_term term = true) terms ->
  parse_terms (String.concat (String c "") terms) = terms.
Proof.
  intros Hc Hclean. unfold parse_terms.
  destruct terms as [|t rest]; [reflexivity|].
  rewrite re_split_concat by (assumption || discriminate).
  rewrite Forall_forall in Hclean.
  assert (Hkeep : filter (fun term => negb (String.eqb (strip term) "")) (t :: rest)
                  = t :: rest).
  { apply forallb_filter_id. apply forallb_forall. intros x Hx.
    specialize (Hclean x Hx). unfold clean_term in Hclean.
    rewrite !andb_true_iff in Hclean. destruct Hclean as [[Hne Hstrip] _].
    apply String.eqb_eq in Hstrip. now rewrite Hstrip. }
  rewrite Hkeep. rewrite <- (map_id (t :: rest)) at 2. apply map_ext_in.
  intros x Hx. specialize (Hclean x Hx). unfold clean_term in Hclean.
  rewrite !andb_true_iff in Hclean. destruct Hclean as [[_ Hstrip] _].
  now apply String.eqb_eq.
Qed.

Lemma parse_terms_of_joined_witness :
  is_separator ","%char = true
  /\ Forall (fun term => clean_term term = true) ["A1"; "B 2"; "A1"]%string
  /\ parse_terms (String.concat "," ["A1"; "B 2"; "A1"]%string)
     = ["A1"; "B 2"; "A1"]%string.
Proof.
  split; [reflexivity|].
  assert (H : Forall (fun term => clean_term term = true) ["A1"; "B 2"; "A1"]%string)
    by (repeat constructor).
  split; [exact H|].
  exact (parse_terms_of_joined ","%char ["A1"; "B 2"; "A1"]%string eq_refl H).
Defined.

Lemma blank_has_no_terms (raw : string) :
  strip raw = ""%string -> parse_terms raw = [].
Proof.
  intros Hblank. apply strip_empty in Hblank. unfold parse_terms.
  rewrite filter_none; [reflexivity|].
  intros piece Hin. apply negb_false_iff, String.eqb_eq, strip_empty.
  pose proof (re_split_pieces is_space raw) as H.
  rewrite Forall_forall in H. apply H; [|assumption].
  intros c _. now apply all_chars_In.
Qed.

(** X3.  An entry that holds at least one term is never turned away by the
    blank check: with a known store selected, [start_search] starts a
    worker on exactly the parsed terms and shows no dialog. *)
Theorem entry_with_a_term_is_searched (a : app) (selected_store : Store) :
  parse_terms (search_term_var a) <> [] ->
  find_store (stores a) (store_var a) = Some selected_store ->
  threads (start_search a)
  = threads a ++ [{| thread_store := selected_store;
                     thread_search_type := lower (search_type_var a);
                     thread_search_field := search_field_var a;
                     thread_terms := parse_terms (search_term_var a) |}]
  /\ dialogs (start_search a) = dialogs a
  /\ is_searching (start_search a) = true.
Proof.
  intros Hterms Hstore.
  assert (Hraw : strip (search_term_var a) <> ""%string)
    by (intros Hblank; apply Hterms; now apply blank_has_no_terms).
  destruct (start_search_spawns a selected_store Hraw Hstore) as (Ht & _ & _ & Hs & Hd).
  repeat split; assumption.
Qed.

Lemma entry_with_a_term_is_searched_witness :
  parse_terms (search_term_var (app_with " A1 ,, A2" two_records)) <> []
  /\ find_store (stores (app_with " A1 ,, A2" two_records))
                (store_var (app_with " A1 ,, A2" two_records)) = Some diesel
  /\ threads (start_search (app_with " A1 ,, A2" two_records))
     = [{| thread_store := diesel; thread_search_type := "outbound";
           thread_search_field := "Client ID";
           thread_terms := ["A1"; "A2"]%string |}].
Proof.
  split; [discriminate|]. split; [reflexivity|].
  exact (proj1 (entry_with_a_term_is_searched (app_with " A1 ,, A2" two_records) diesel
                  ltac:(discriminate) eq_refl)).
Defined.

(** ** Starting, stopping and resetting *)

(** X4.  [start_search] looks neither at [is_searching] nor at the stop
    flag: called again while a search is under way (the entry's Return key
    is bound to it) it clears the flag and starts a second worker on the
    same terms. *)
Theorem start_search_twice (a : app) (selected_store : Store) :
  strip (search_term_var a) <> ""%string ->
  find_store (stores a) (store_var a) = Some selected_store ->
  let worker := {| thread_store := selected_store;
                   thread_search_type := lower (search_type_var a);
                   thread_search_field := search_field_var a;
                   thread_terms := parse_terms (search_term_var a) |} in
  is_searching (start_search a) = true
  /\ threads (start_search (start_search a)) = threads a ++ [worker; worker]
  /\ stop_event (start_search (stop_search (start_search a))) = false
  /\ threads (start_search (stop_search (start_search a)))
     = threads a ++ [worker; worker].
Proof.
  intros Hraw Hstore worker.
  destruct (start_search_spawns a selected_store Hraw Hstore) as (Ht & _ & _ & Hs & _).
  split; [exact Hs|].
  assert (Hsame : forall b,
            stores b = stores a -> store_var b = store_var a ->
            search_type_var b = search_type_var a ->
            search_field_var b = search_field_var a ->
            search_term_var b = search_term_var a ->
            threads b = threads a ++ [worker] ->
            threads (start_search b) = threads a ++ [worker; worker]
            /\ stop_event (start_search b) = false).
  { intros b H1 H2 H3 H4 H5 H6. unfold start_search.
    rewrite H1, H2, H3, H4, H5. apply String.eqb_neq in Hraw.
    rewrite Hraw, Hstore. simpl. rewrite H6, <- app_assoc. now split. }
  assert (Hkept : stores (start_search a) = stores a
                  /\ store_var (start_search a) = store_var a
                  /\ search_type_var (start_search a) = search_type_var a
                  /\ search_field_var (start_search a) = search_field_var a
                  /\ search_term_var (start_search a) = search_term_var a).
  { unfold start_search. apply String.eqb_neq in Hraw. rewrite Hraw, Hstore.
    simpl. repeat split. }
  destruct Hkept as (K1 & K2 & K3 & K4 & K5).
  split; [apply (Hsame (start_search a)); assumption|].
  assert (Hstop : forall b, stores (stop_search b) = stores b
                            /\ store_var (stop_search b) = store_var b
                            /\ search_type_var (stop_search b) = search_type_var b
                            /\ search_field_var (stop_search b) = search_field_var b
                            /\ search_term_var (stop_search b) = search_term_var b
                            /\ threads (stop_search b) = threads b).
  { intros b. unfold stop_search. destruct (is_searching b); simpl; repeat split. }
  destruct (Hstop (start_search a)) as (S1 & S2 & S3 & S4 & S5 & S6).
  assert (H := Hsame (stop_search (start_search a))).
  rewrite S1, S2, S3, S4, S5, S6 in H.
  specialize (H K1 K2 K3 K4 K5 Ht). destruct H as [Hthreads Hflag].
  split; assumption.
Qed.

Lemma start_search_twice_witness :
  strip (search_term_var (app_with "A1,A2" two_records)) <> ""%string
  /\ find_store (stores (app_with "A1,A2" two_records))
                (store_var (app_with "A1,A2" two_records)) = Some diesel
  /\ List.length (threads (start_search (start_search (app_with "A1,A2" two_records))))
     = 2.
Proof.
  split; [discriminate|]. split; [reflexivity|].
  destruct (start_search_twice (app_with "A1,A2" two_records) diesel
              ltac:(discriminate) eq_refl) as (_ & H & _).
  rewrite H. reflexivity.
Defined.

(** [stop_search] does nothing when no search is under way; during a
    search it sets the stop flag, disables the stop button and logs a
    warning, and leaves the stored results, the table, the searching state
    and the other buttons as they are. *)
Theorem stop_search_effect (a : app) :
  (is_searching a = false -> stop_search a = a)
  /\ (is_searching a = true ->
      stop_event (stop_search a) = true
      /\ stop_button (stop_search a) = disabled
      /\ status_label (stop_search a) = "Stopping..."%string
      /\ log_text (stop_search a) = log_text a ++ [("WARN", "Stopping search...")]%string
      /\ is_searching (stop_search a) = true
      /\ results_data (stop_search a) = results_data a
      /\ tree (stop_search a) = tree a
      /\ search_button (stop_search a) = search_button a
      /\ refresh_button (stop_search a) = refresh_button a
      /\ export_button (stop_search a) = export_button a
      /\ threads (stop_search a) = threads a
      /\ dialogs (stop_search a) = dialogs a).
Proof.
  unfold stop_search. split; intros H; rewrite H; [reflexivity|].
  simpl. repeat split.
Qed.

Lemma stop_search_effect_witness :
  (is_searching blank_app = false /\ stop_search blank_app = blank_app)
  /\ (is_searching searching_app = true
      /\ stop_event (stop_search searching_app) = true
      /\ results_data (stop_search searching_app) = results_data searching_app).
Proof.
  split.
  - split; [reflexivity|]. exact (proj1 (stop_search_effect blank_app) eq_refl).
  - split; [reflexivity|].
    destruct (proj2 (stop_search_effect searching_app) eq_refl)
      as (H1 & _ & _ & _ & _ & H2 & _).
    split; assumption.
Defined.

(** X5.  Whatever the window held, after [reset_ui] the entry, the stored
    results, the rows and the log are emptied (the log then holds the reset
    notice only), and export is disabled; an export attempted all the same
    writes no file.  The column headings stay, and so does the searching
    state: a search under way is asked to stop but the window still counts
    as searching, with the search button enabled. *)
Theorem reset_ui_effect (json_dumps : list value -> string) (a : app)
    (chosen : string) (open_error : option string) :
  search_term_var (reset_ui a) = ""%string
  /\ results_data (reset_ui a) = []
  /\ rows (tree (reset_ui a)) = []
  /\ columns (tree (reset_ui a)) = columns (tree a)
  /\ log_text (reset_ui a) = [("INFO", "Application reset.")]%string
  /\ export_button (reset_ui a) = disabled
  /\ search_button (reset_ui a) = normal
  /\ stop_button (reset_ui a) = disabled
  /\ is_searching (reset_ui a) = is_searching a
  /\ stop_event (reset_ui a) = (stop_event a || is_searching a)%bool
  /\ threads (reset_ui a) = threads a
  /\ files (fst (export_to_csv json_dumps (reset_ui a) chosen open_error)) = files a
  /\ snd (export_to_csv json_dumps (reset_ui a) chosen open_error) = None.
Proof.
  unfold reset_ui, stop_search, export_to_csv.
  destruct (is_searching a) eqn:Hs; simpl; rewrite ?Hs;
    repeat split; now destruct (stop_event a).
Qed.

(** X6.  Without stores the window is not built: a configuration error is
    shown instead.  With stores it opens on the first one, on outbound
    searches by 'Client ID'; from there any entry that is not blank starts
    a worker for that store, and that worker uses the point lookup. *)
Theorem window_construction (loaded : list Store) (raw : string) :
  (loaded = [] -> __init__ loaded = inr configuration_error)
  /\ (forall first rest, loaded = first :: rest ->
      strip raw <> ""%string ->
      exists a,
        __init__ loaded = inl a
        /\ stores a = loaded
        /\ results_data a = [] /\ is_searching a = false
        /\ export_button a = disabled /\ stop_button a = disabled
        /\ threads (start_search (set_search_term a raw))
           = [{| thread_store := first; thread_search_type := "outbound";
                 thread_search_field := "Client ID";
                 thread_terms := parse_terms raw |}]
        /\ is_point_lookup "outbound" "Client ID" = true).
Proof.
  split; [now intros ->|].
  intros first rest -> Hraw. eexists. split; [reflexivity|].
  simpl. repeat split.
  unfold start_search. simpl. apply String.eqb_neq in Hraw.
  rewrite Hraw, String.eqb_refl. reflexivity.
Qed.

Lemma window_construction_witness :
  __init__ [] = inr configuration_error
  /\ diesel :: [] = diesel :: []
  /\ strip " A1 " <> ""%string
  /\ exists a, __init__ [diesel] = inl a
               /\ threads (start_search (set_search_term a " A1 "))
                  = [{| thread_store := diesel; thread_search_type := "outbound";
                        thread_search_field := "Client ID";
                        thread_terms := ["A1"%string] |}].
Proof.
  split; [exact (proj1 (window_construction [] "") eq_refl)|].
  split; [reflexivity|]. split; [discriminate|].
  destruct (proj2 (window_construction [diesel] " A1 ") diesel [] eq_refl
              ltac:(discriminate)) as (a & Ha & _ & _ & _ & _ & _ & Ht & _).
  exists a. split; [exact Ha | exact Ht].
Defined.

(** Whatever the search type, the 'Search By' menu is refilled with
    two fields of which the first, 'Client ID', becomes the selection, and
    every field it offers has its own entry in the lookup table of the
    windowed search. *)
Theorem search_fields_menu (a : app) :
  search_field_var (_update_search_fields a) = "Client ID"%string
  /\ List.length (search_field_values (search_type_var a)) = 2
  /\ (forall field, In field (search_field_values (search_type_var a)) ->
        api_search_field field <> "search"%string)
  /\ search_type_var (_update_search_fields a) = search_type_var a
  /\ results_data (_update_search_fields a) = results_data a.
Proof.
  unfold _update_search_fields, search_field_values.
  destruct (String.eqb (search_type_var a) "Outbound"); simpl; repeat split;
    intros field [<-|[<-|[]]]; discriminate.
Qed.

(** ** Loading the stores *)

Lemma leb_trans (a b c : string) :
  String.leb a b = true -> String.leb b c = true -> String.leb a c = true.
Proof.
  intros Hab Hbc.
  apply leb_true_cases in Hab as [->|Hab]; [assumption|].
  apply leb_true_cases in Hbc as [<-|Hbc].
  - unfold String.leb. unfold str_lt in Hab. now rewrite Hab.
  - pose proof (str_lt_trans _ _ _ Hab Hbc) as Hac.
    unfold String.leb. unfold str_lt in Hac. now rewrite Hac.
Qed.

Lemma insert_store_In (s : Store) (l : list Store) (x : Store) :
  In x (insert_store s l) <-> x = s \/ In x l.
Proof.
  induction l as [|t rest IH]; simpl.
  - intuition.
  - destruct (String.leb (name s) (name t)); simpl; [intuition|].
    rewrite IH. intuition.
Qed.

Lemma sort_stores_In (l : list Store) (x : Store) : In x (sort_stores l) <-> In x l.
Proof.
  induction l as [|s rest IH]; simpl; [tauto|].
  rewrite insert_store_In, IH. intuition.
Qed.

Lemma insert_store_sorted (s : Store) (l : list Store) :
  StronglySorted by_name l -> StronglySorted by_name (insert_store s l).
Proof.
  induction l as [|t rest IH]; simpl; intros Hs.
  - repeat constructor.
  - inversion Hs as [|? ? Hrest Hall]; subst.
    destruct (String.leb (name s) (name t)) eqn:E.
    + constructor; [assumption|]. constructor; [exact E|].
      rewrite Forall_forall in *. intros x Hx. unfold by_name in *.
      eapply leb_trans; eauto.
    + assert (Hts : by_name t s).
      { unfold by_name. destruct (String.leb_total (name s) (name t)); congruence. }
      constructor; [now apply IH|].
      rewrite Forall_forall in *. intros x Hx.
      apply insert_store_In in Hx as [->|Hx]; auto.
Qed.

Lemma sort_stores_sorted (l : list Store) : StronglySorted by_name (sort_stores l).
Proof.
  induction l as [|s rest IH]; simpl; [constructor | now apply insert_store_sorted].
Qed.

Lemma collect_stores_In (environ items : list (string * string)) (s : Store) :
  In s (collect_stores environ items)
  <-> exists item, In item items /\ store_of_item environ item = Some s.
Proof.
  induction items as [|item rest IH]; simpl.
  - split; [intros [] | intros (? & [] & _)].
  - destruct (store_of_item environ item) as [s'|] eqn:E; simpl; rewrite IH; split.
    + intros [<-|(i & Hi & Hs)]; eauto.
    + intros (i & [<-|Hi] & Hs); [left; congruence | eauto].
    + intros (i & Hi & Hs); eauto.
    + intros (i & [<-|Hi] & Hs); [congruence | eauto].
Qed.

Lemma collect_stores_length (environ items : list (string * string)) :
  List.length (collect_stores environ items) <= List.length items.
Proof.
  induction items as [|item rest IH]; simpl; [lia|].
  destruct (store_of_item environ item); simpl; lia.
Qed.

(** X7.  The stores come back ordered by display name, each pair of them
    in order, whatever the order of the environment. *)
Theorem loaded_stores_sorted (environ : list (string * string)) :
  StronglySorted by_name (load_stores_from_env environ).
Proof. apply sort_stores_sorted. Qed.

(** X8.  A store is loaded only from a variable named
    [PARCELNINJA_USER_...] whose value, the user name, is not empty and
    whose companion [PARCELNINJA_PASS_<id>] exists and is not empty; its
    identifier has no white space at either end, and its display name is
    the friendly name of the identifier in lower case, or
    'Store (<first 8 characters>...)' when it has none. *)
Theorem loaded_store_is_backed (environ : list (string * string)) (s : Store) :
  In s (load_stores_from_env environ) ->
  username s <> ""%string
  /\ password s <> ""%string
  /\ environ_get environ ("PARCELNINJA_PASS_" ++ id s)%string = Some (password s)
  /\ strip (id s) = id s
  /\ name s = store_display_name (id s)
  /\ exists key, In (key, username s) environ
                 /\ has_prefix "PARCELNINJA_USER_" key = true.
Proof.
  unfold load_stores_from_env. rewrite sort_stores_In, collect_stores_In.
  intros ([key value] & Hin & Hs). unfold store_of_item, user_pattern_match in Hs.
  destruct (strip_prefix "PARCELNINJA_USER_" key) as [rest|] eqn:Hprefix;
    [|discriminate].
  destruct (take_line rest) as [group1 tail].
  destruct (String.eqb group1 ""); [discriminate|].
  destruct (String.eqb tail "" || String.eqb tail nl); [|discriminate].
  destruct (environ_get environ ("PARCELNINJA_PASS_" ++ strip group1)%string)
    as [pw|] eqn:Hpw; [|discriminate].
  destruct (String.eqb_spec value ""); [discriminate|].
  destruct (String.eqb_spec pw ""); [discriminate|].
  simpl in Hs. injection Hs as <-. simpl.
  split; [assumption|]. split; [assumption|]. split; [exact Hpw|].
  split; [apply strip_idem|]. split; [reflexivity|].
  exists key. split; [exact Hin|]. unfold has_prefix. now rewrite Hprefix.
Qed.

Lemma loaded_store_is_backed_witness :
  In {| id := "B112948B-0390-4833-8F41-47F997C5382C"; name := "Superdry";
        username := "superdry-api"; password := "s3cret" |}
     (load_stores_from_env sample_environ)
  /\ environ_get sample_environ "PARCELNINJA_PASS_B112948B-0390-4833-8F41-47F997C5382C"
     = Some "s3cret"%string.
Proof.
  assert (H : In {| id := "B112948B-0390-4833-8F41-47F997C5382C"; name := "Superdry";
                    username := "superdry-api"; password := "s3cret" |}
                 (load_stores_from_env sample_environ))
    by (vm_compute; auto).
  split; [exact H|].
  exact (proj1 (proj2 (proj2 (loaded_store_is_backed sample_environ _ H)))).
Defined.

Lemma take_line_whole (s : string) :
  all_chars (fun c => negb (is_newline c)) s = true -> take_line s = (s, ""%string).
Proof.
  induction s as [|c s IH]; simpl; [reflexivity|].
  rewrite andb_true_iff, negb_true_iff. intros [Hc Hs]. now rewrite Hc, IH.
Qed.

(** X9.  A pair of variables [PARCELNINJA_USER_<id>] and
    [PARCELNINJA_PASS_<id>], both with a value that is not empty, always
    gives a store with that identifier and those credentials, when the
    identifier is not empty, has no newline and no white space at either
    end. *)
Theorem credentials_pair_is_loaded (environ : list (string * string))
    (store_id user pass : string) :
  In (("PARCELNINJA_USER_" ++ store_id)%string, user) environ ->
  environ_get environ ("PARCELNINJA_PASS_" ++ store_id)%string = Some pass ->
  store_id <> ""%string ->
  strip store_id = store_id ->
  all_chars (fun c => negb (is_newline c)) store_id = true ->
  user <> ""%string -> pass <> ""%string ->
  In {| id := store_id; name := store_display_name store_id;
        username := user; password := pass |}
     (load_stores_from_env environ).
Proof.
  intros Hin Hpass Hid Hstrip Hline Huser Hpw.
  unfold load_stores_from_env. rewrite sort_stores_In, collect_stores_In.
  exists (("PARCELNINJA_USER_" ++ store_id)%string, user). split; [exact Hin|].
  unfold store_of_item, user_pattern_match.
  change (strip_prefix "PARCELNINJA_USER_" ("PARCELNINJA_USER_" ++ store_id))
    with (Some store_id).
  cbv beta iota. rewrite (take_line_whole store_id Hline).
  apply String.eqb_neq in Hid, Huser, Hpw.
  cbv beta iota. rewrite Hid. cbn [String.eqb orb].
  rewrite Hstrip, Hpass, Huser, Hpw. reflexivity.
Qed.

Lemma credentials_pair_is_loaded_witness :
  In (("PARCELNINJA_USER_" ++ "warehouse-9")%string, "wh9"%string) sample_environ
  /\ environ_get sample_environ ("PARCELNINJA_PASS_" ++ "warehouse-9")%string
     = Some "pw9"%string
  /\ In {| id := "warehouse-9"; name := "Store (warehous...)";
           username := "wh9"; password := "pw9" |}
        (load_stores_from_env sample_environ).
Proof.
  assert (Hin : In (("PARCELNINJA_USER_" ++ "warehouse-9")%string, "wh9"%string)
                   sample_environ) by (simpl; auto 10).
  split; [exact Hin|]. split; [reflexivity|].
  exact (credentials_pair_is_loaded sample_environ "warehouse-9" "wh9" "pw9" Hin eq_refl
           ltac:(discriminate) eq_refl eq_refl ltac:(discriminate) ltac:(discriminate)).
Defined.

(** X10.  An environment in which no variable name starts with
    [PARCELNINJA_USER_] gives no store, and the window then shows the
    configuration error instead of opening. *)
Theorem no_credentials_no_window (environ : list (string * string)) :
  (forall key value, In (key, value) environ ->
     has_prefix "PARCELNINJA_USER_" key = false) ->
  load_stores_from_env environ = []
  /\ __init__ (load_stores_from_env environ) = inr configuration_error.
Proof.
  intros Hnone.
  assert (Hempty : collect_stores environ environ = []).
  { destruct (collect_stores environ environ) as [|s rest] eqn:E; [reflexivity|].
    assert (Hs : In s (collect_stores environ environ)) by (rewrite E; now left).
    apply collect_stores_In in Hs as ([key value] & Hin & Hs).
    specialize (Hnone key value Hin). unfold has_prefix in Hnone.
    unfold store_of_item, user_pattern_match in Hs.
    destruct (strip_prefix "PARCELNINJA_USER_" key); discriminate. }
  unfold load_stores_from_env. rewrite Hempty. split; reflexivity.
Qed.

Lemma no_credentials_no_window_witness :
  (forall key value,
     In (key, value) [("PATH", "/usr/bin"); ("PARCELNINJA_PASS_x", "pw")]%string ->
     has_prefix "PARCELNINJA_USER_" key = false)
  /\ __init__ (load_stores_from_env
                 [("PATH", "/usr/bin"); ("PARCELNINJA_PASS_x", "pw")]%string)
     = inr configuration_error.
Proof.
  assert (H : forall key value,
            In (key, value) [("PATH", "/usr/bin"); ("PARCELNINJA_PASS_x", "pw")]%string ->
            has_prefix "PARCELNINJA_USER_" key = false).
  { intros key value [E|[E|[]]]; injection E as <- _; reflexivity. }
  split; [exact H|].
  exact (proj2 (no_credentials_no_window _ H)).
Defined.

(** ** More on the worker *)

Lemma process_term_field (w : world) (store : Store) (search_type f1 f2 : string)
    (index : nat) (term : string) :
  is_point_lookup search_type f1 = false ->
  is_point_lookup search_type f2 = false ->
  process_term w store search_type f1 index term
  = process_term w store search_type f2 index term.
Proof. intros H1 H2. unfold process_term. now rewrite H1, H2. Qed.

Lemma search_loop_field (w : world) (store : Store) (search_type f1 f2 : string)
    (total : nat) (terms : list string) :
  is_point_lookup search_type f1 = false ->
  is_point_lookup search_type f2 = false ->
  forall index results,
    search_loop w store search_type f1 total index terms results
    = search_loop w store search_type f2 total index terms results.
Proof.
  intros H1 H2. induction terms as [|term rest IH]; intros index results; simpl;
    [reflexivity|].
  rewrite (process_term_field w store search_type f1 f2 index term H1 H2).
  destruct (is_set w index); [reflexivity|].
  destruct (process_term w store search_type f2 index term) as [msgs [appended|e]];
    [now rewrite IH | reflexivity].
Qed.

(** X11.  On the windowed search the selected field changes nothing: two
    runs that differ only in the field, neither being the point lookup,
    put the same messages and the same batch. *)
Theorem windowed_run_ignores_field (w : world) (store : Store)
    (search_type field1 field2 : string) (terms : list string) :
  is_point_lookup search_type field1 = false ->
  is_point_lookup search_type field2 = false ->
  run_api_search w store search_type field1 terms
  = run_api_search w store search_type field2 terms.
Proof.
  intros H1 H2. unfold run_api_search.
  now rewrite (search_loop_field w store search_type field1 field2 _ terms H1 H2).
Qed.

Lemma windowed_run_ignores_field_witness :
  is_point_lookup "inbound" "Client ID" = false
  /\ is_point_lookup "inbound" "Supplier Reference" = false
  /\ run_api_search inbound_world diesel "inbound" "Client ID" ["X"; "Y"; "Z"]%string
     = run_api_search inbound_world diesel "inbound" "Supplier Reference"
         ["X"; "Y"; "Z"]%string.
Proof.
  split; [reflexivity|]. split; [reflexivity|].
  exact (windowed_run_ignores_field inbound_world diesel "inbound" "Client ID"
           "Supplier Reference" ["X"; "Y"; "Z"]%string eq_refl eq_refl).
Defined.

Lemma process_term_agree (w1 w2 : world) (store : Store)
    (search_type search_field : string) (index : nat) (term : string) :
  utcnow w2 index = utcnow w1 index ->
  requests_get w2 index (lookup_request w1 store search_type search_field index term)
  = requests_get w1 index (lookup_request w1 store search_type search_field index term) ->
  process_term w2 store search_type search_field index term
  = process_term w1 store search_type search_field index term.
Proof.
  unfold lookup_request, process_term, point_lookup, windowed_search.
  intros Hnow Hget.
  destruct (is_point_lookup search_type search_field); rewrite ?Hnow, Hget; reflexivity.
Qed.

Lemma search_loop_agree (w1 w2 : world) (store : Store)
    (search_type search_field : string) (total : nat) (terms : list string) :
  forall index results,
    (forall j, j <= handled w1 index terms -> is_set w2 (index + j) = is_set w1 (index + j)) ->
    (forall j term, j < handled w1 index terms -> nth_error terms j = Some term ->
       utcnow w2 (index + j) = utcnow w1 (index + j)
       /\ requests_get w2 (index + j)
            (lookup_request w1 store search_type search_field (index + j) term)
          = requests_get w1 (index + j)
              (lookup_request w1 store search_type search_field (index + j) term)) ->
    search_loop w2 store search_type search_field total index terms results
    = search_loop w1 store search_type search_field total index terms results.
Proof.
  induction terms as [|term rest IH]; intros index results Hstop Hget; simpl;
    [reflexivity|].
  simpl in Hstop, Hget.
  pose proof (Hstop 0 (Nat.le_0_l _)) as H0. rewrite Nat.add_0_r in H0. rewrite H0.
  destruct (is_set w1 index) eqn:E; [reflexivity|].
  destruct (Hget 0 term (Nat.lt_0_succ _) eq_refl) as [Hnow Hreq].
  rewrite Nat.add_0_r in Hnow, Hreq.
  rewrite (process_term_agree w1 w2 store search_type search_field index term Hnow Hreq).
  destruct (process_term w1 store search_type search_field index term)
    as [msgs [appended|e]]; [|reflexivity].
  rewrite IH; [reflexivity | |].
  - intros j Hj. rewrite Nat.add_succ_comm. apply Hstop. lia.
  - intros j t Hj Ht. rewrite Nat.add_succ_comm. apply Hget; [lia | exact Ht].
Qed.

(** X12.  A run depends on the outside only through what it observes at
    the terms it handles: the stop flag read before each of them and once
    more where it stops, the clock, and the answer to the one request sent
    for each.  Two worlds that agree there give the same run, so no term is
    looked up twice and none after the stop. *)
Theorem run_depends_on_handled_terms (w1 w2 : world) (store : Store)
    (search_type search_field : string) (terms : list string) :
  (forall i, i <= handled w1 0 terms -> is_set w2 i = is_set w1 i) ->
  (forall i term, i < handled w1 0 terms -> nth_error terms i = Some term ->
     utcnow w2 i = utcnow w1 i
     /\ requests_get w2 i (lookup_request w1 store search_type search_field i term)
        = requests_get w1 i (lookup_request w1 store search_type search_field i term)) ->
  run_api_search w2 store search_type search_field terms
  = run_api_search w1 store search_type search_field terms.
Proof.
  intros Hstop Hget. unfold run_api_search.
  now rewrite (search_loop_agree w1 w2 store search_type search_field
                 (List.length terms) terms 0 [] Hstop Hget).
Qed.

Lemma run_depends_on_handled_terms_witness :
  handled inbound_world 0 ["X"; "Y"; "Z"]%string = 3
  /\ requests_get inbound_world_later 3 (point_request diesel "X")
     <> requests_get inbound_world 3 (point_request diesel "X")
  /\ run_api_search inbound_world_later diesel "inbound" "Client ID" ["X"; "Y"; "Z"]%string
     = run_api_search inbound_world diesel "inbound" "Client ID" ["X"; "Y"; "Z"]%string.
Proof.
  split; [reflexivity|]. split; [discriminate|].
  apply (run_depends_on_handled_terms inbound_world inbound_world_later diesel
           "inbound" "Client ID" ["X"; "Y"; "Z"]%string).
  - intros i Hi. simpl in Hi.
    destruct i as [|[|[|[|i]]]]; [reflexivity .. | lia].
  - intros i term Hi _. simpl in Hi.
    destruct i as [|[|[|i]]]; [split; reflexivity .. | lia].
Defined.

Lemma term_records_tagged (w : world) (store : Store)
    (search_type search_field : string) (index : nat) (term : string) :
  Forall (fun record => dict_find record "_store_name" = Some (VStr (name store)))
         (term_records w store search_type search_field index term).
Proof.
  destruct (faults w store search_type search_field index term) eqn:Hf.
  - unfold faults in Hf. unfold term_records.
    destruct (snd (process_term w store search_type search_field index term));
      [discriminate | constructor].
  - destruct (term_records_outcome w store search_type search_field index term Hf)
      as [_ Hout].
    inversion Hout as [r data _ _ _ _ | r data item items _ _ _ _ _ | reason].
    + constructor; [|constructor].
      now rewrite dict_find_dict_set, String.eqb_refl.
    + apply Forall_forall. intros record Hin.
      change (In record (map (fun d => dict_set d "_store_name" (VStr (name store)))
                             (item :: items))) in Hin.
      apply in_map_iff in Hin as (d & <- & _).
      now rewrite dict_find_dict_set, String.eqb_refl.
    + repeat constructor.
Qed.

Lemma records_from_tagged (w : world) (store : Store)
    (search_type search_field : string) (terms : list string) :
  forall index,
    Forall (fun record => dict_find record "_store_name" = Some (VStr (name store)))
           (records_from w store search_type search_field index terms).
Proof.
  induction terms as [|term rest IH]; intros index; simpl; [constructor|].
  apply Forall_app. split; [apply term_records_tagged | apply IH].
Qed.

Lemma point_records_one (w : world) (store : Store)
    (search_type search_field : string) (index : nat) (term : string) :
  is_point_lookup search_type search_field = true ->
  faults w store search_type search_field index term = false ->
  List.length (term_records w store search_type search_field index term) = 1.
Proof.
  intros Hp Hf.
  destruct (term_records_outcome w store search_type search_field index term Hf)
    as [_ Hout].
  inversion Hout as [r data _ _ _ _ | r data item items Hw _ _ _ _ | reason];
    [reflexivity | congruence | reflexivity].
Qed.

Lemma records_from_length (w : world) (store : Store)
    (search_type search_field : string) (terms : list string) :
  forall index,
    (forall j term, nth_error terms j = Some term ->
       faults w store search_type search_field (index + j) term = false) ->
    List.length terms
    <= List.length (records_from w store search_type search_field index terms)
    /\ (is_point_lookup search_type search_field = true ->
        List.length (records_from w store search_type search_field index terms)
        = List.length terms).
Proof.
  induction terms as [|term rest IH]; intros index Hnofault; simpl.
  - split; [lia | reflexivity].
  - assert (Hf : faults w store search_type search_field index term = false).
    { specialize (Hnofault 0 term eq_refl). now rewrite Nat.add_0_r in Hnofault. }
    destruct (IH (S index)) as [Hle Hpoint].
    { intros j t Hj. rewrite Nat.add_succ_comm. now apply Hnofault. }
    rewrite length_app.
    destruct (term_records_outcome w store search_type search_field index term Hf)
      as [Hne _].
    split.
    + destruct (term_records w store search_type search_field index term);
        [congruence | simpl; lia].
    + intros Hp. rewrite (point_records_one w store search_type search_field index term Hp Hf).
      rewrite Hpoint by assumption. reflexivity.
Qed.

(** X13.  In a run that no uncaught exception ends, every record of the
    terminal batch, found or placeholder, carries the display name of the
    store under [_store_name]. *)
Theorem batch_records_carry_store_name (w : world) (store : Store)
    (search_type search_field : string) (terms : list string) :
  uncaught (run_api_search w store search_type search_field terms) = None ->
  exists logs batch,
    queue (run_api_search w store search_type search_field terms)
    = logs ++ [DoneMsg batch]
    /\ Forall (fun record => dict_find record "_store_name" = Some (VStr (name store)))
              batch.
Proof.
  intros Hdone.
  destruct (run_api_search_done w store search_type search_field terms Hdone) as [Hq _].
  rewrite app_assoc in Hq. eexists. eexists. split; [exact Hq|].
  apply records_from_tagged.
Qed.

Lemma batch_records_carry_store_name_witness :
  uncaught (run_api_search inbound_world diesel "inbound" "Client ID"
              ["X"; "Y"; "Z"]%string) = None
  /\ exists logs batch,
       queue (run_api_search inbound_world diesel "inbound" "Client ID"
                ["X"; "Y"; "Z"]%string) = logs ++ [DoneMsg batch]
       /\ Forall (fun record => dict_find record "_store_name" = Some (VStr "Diesel"))
                 batch.
Proof.
  split; [reflexivity|].
  exact (batch_records_carry_store_name inbound_world diesel "inbound" "Client ID"
           ["X"; "Y"; "Z"]%string eq_refl).
Defined.

(** X14.  In a run that no uncaught exception ends, the terminal batch has
    at least one record for each term handled before the stop, and on the
    point lookup exactly one. *)
Theorem batch_size (w : world) (store : Store)
    (search_type search_field : string) (terms : list string) :
  uncaught (run_api_search w store search_type search_field terms) = None ->
  exists logs batch,
    queue (run_api_search w store search_type search_field terms)
    = logs ++ [DoneMsg batch]
    /\ handled w 0 terms <= List.length batch
    /\ (is_point_lookup search_type search_field = true ->
        List.length batch = handled w 0 terms).
Proof.
  intros Hdone.
  destruct (run_api_search_done w store search_type search_field terms Hdone)
    as [Hq Hnofault].
  rewrite app_assoc in Hq. eexists. eexists. split; [exact Hq|].
  pose proof (handled_le w 0 terms) as Hle.
  destruct (records_from_length w store search_type search_field
              (firstn (handled w 0 terms) terms) 0 Hnofault) as [H1 H2].
  rewrite length_firstn, Nat.min_l in H1, H2 by assumption.
  split; assumption.
Qed.

Lemma batch_size_witness :
  uncaught (run_api_search stopped_after_first diesel "outbound" "Client ID"
              ["A1"; "A2"]%string) = None
  /\ is_point_lookup "outbound" "Client ID" = true
  /\ handled stopped_after_first 0 ["A1"; "A2"]%string = 1
  /\ exists logs batch,
       queue (run_api_search stopped_after_first diesel "outbound" "Client ID"
                ["A1"; "A2"]%string) = logs ++ [DoneMsg batch]
       /\ List.length batch = 1.
Proof.
  split; [reflexivity|]. split; [reflexivity|]. split; [reflexivity|].
  destruct (batch_size stopped_after_first diesel "outbound" "Client ID"
              ["A1"; "A2"]%string eq_refl) as (logs & batch & Hq & _ & Hpoint).
  exists logs, batch. split; [exact Hq | exact (Hpoint eq_refl)].
Defined.

(** ** Draining the queue *)

Lemma search_loop_logs (w : world) (store : Store) (search_type search_field : string)
    (total : nat) (terms : list string) :
  forall index results,
    forallb is_log
      (fst (search_loop w store search_type search_field total index terms results))
    = true.
Proof.
  induction terms as [|term rest IH]; intros index results; simpl; [reflexivity|].
  destruct (is_set w index); [reflexivity|].
  pose proof (term_messages_logs w store search_type search_field index term) as Hm.
  unfold term_messages in Hm.
  destruct (process_term w store search_type search_field index term)
    as [msgs [appended|e]]; simpl in *.
  - specialize (IH (S index) (results ++ appended)).
    destruct (search_loop w store search_type search_field total (S index) rest
                          (results ++ appended)) as [later out].
    simpl in *. now rewrite forallb_app, Hm, IH.
  - exact Hm.
Qed.

Lemma crashed_queue_logs (w : world) (store : Store) (search_type search_field : string)
    (terms : list string) (e : exn) :
  uncaught (run_api_search w store search_type search_field terms) = Some e ->
  forallb is_log (queue (run_api_search w store search_type search_field terms)) = true.
Proof.
  unfold run_api_search.
  pose proof (search_loop_logs w store search_type search_field
                (List.length terms) terms 0 []) as H.
  destruct (search_loop w store search_type search_field (List.length terms) 0 terms [])
    as [msgs [batch|e']]; simpl in *; [discriminate | now intros _].
Qed.

Section QueueProperties.

Variable json_dumps : list value -> string.

(** What log messages alone do to the window. *)
Lemma process_api_queue_logs (waiting : list message) : forall a,
  forallb is_log waiting = true ->
  let a' := process_api_queue json_dumps a waiting in
  log_text a' = log_text a ++ flat_map log_line waiting
  /\ results_data a' = results_data a /\ tree a' = tree a
  /\ is_searching a' = is_searching a /\ stop_event a' = stop_event a
  /\ search_button a' = search_button a /\ stop_button a' = stop_button a
  /\ refresh_button a' = refresh_button a /\ export_button a' = export_button a
  /\ status_label a' = status_label a /\ dialogs a' = dialogs a
  /\ threads a' = threads a /\ files a' = files a
  /\ search_term_var a' = search_term_var a.
Proof.
  induction waiting as [|m rest IH]; intros a Hlogs.
  - simpl. rewrite app_nil_r. repeat split.
  - simpl in Hlogs. apply andb_true_iff in Hlogs as [Hm Hrest].
    destruct m as [msg level|results]; [|discriminate].
    change (process_api_queue json_dumps a (LogMsg msg level :: rest))
      with (process_api_queue json_dumps
              (process_message json_dumps a (LogMsg msg level)) rest).
    destruct (IH (process_message json_dumps a (LogMsg msg level)) Hrest)
      as (H1 & H2 & H3 & H4 & H5 & H6 & H7 & H8 & H9 & H10 & H11 & H12 & H13 & H14).
    cbv zeta.
    rewrite H1, H2, H3, H4, H5, H6, H7, H8, H9, H10, H11, H12, H13, H14.
    simpl. rewrite <- app_assoc. destruct level; repeat split.
Qed.

(** X15.  When an uncaught exception has ended the worker, draining its
    queue only adds its messages to the log: the window stays in the
    searching state it was in, with the same buttons, results and table,
    since nothing but the terminal message ends a search. *)
Theorem crashed_run_leaves_window_searching (w : world) (store : Store)
    (search_type search_field : string) (terms : list string) (e : exn) (a : app) :
  uncaught (run_api_search w store search_type search_field terms) = Some e ->
  let waiting := queue (run_api_search w store search_type search_field terms) in
  let a' := process_api_queue json_dumps a waiting in
  is_searching a' = is_searching a
  /\ search_button a' = search_button a
  /\ stop_button a' = stop_button a
  /\ refresh_button a' = refresh_button a
  /\ export_button a' = export_button a
  /\ results_data a' = results_data a
  /\ tree a' = tree a
  /\ log_text a' = log_text a ++ flat_map log_line waiting.
Proof.
  intros Hcrash waiting a'.
  destruct (process_api_queue_logs waiting a
              (crashed_queue_logs w store search_type search_field terms e Hcrash))
    as (H1 & H2 & H3 & H4 & _ & H6 & H7 & H8 & H9 & _).
  repeat split; assumption.
Qed.

(** X16.  When the worker ends normally, draining its queue shows its
    messages in the log in the order they were put (at level INFO when
    they name none), stores the batch, rebuilds the table from it, leaves
    the searching state, enables search and reset again and disables stop;
    export is enabled when the batch is not empty, and the status line
    counts the records that have no [status_error] field. *)
Theorem finished_run_is_delivered (w : world) (store : Store)
    (search_type search_field : string) (terms : list string) (a : app) :
  uncaught (run_api_search w store search_type search_field terms) = None ->
  let a' := process_api_queue json_dumps a
              (queue (run_api_search w store search_type search_field terms)) in
  exists logs batch,
    queue (run_api_search w store search_type search_field terms)
    = logs ++ [DoneMsg batch]
    /\ results_data a' = batch
    /\ tree a' = update_results_table json_dumps batch
    /\ is_searching a' = false
    /\ search_button a' = normal /\ stop_button a' = disabled
    /\ refresh_button a' = normal
    /\ export_button a' = match batch with [] => export_button a | _ :: _ => normal end
    /\ status_label a'
       = ("Search complete. Found "
          ++ str_of_nat (List.length
                           (filter (fun r => negb (dict_mem r "status_error")) batch))
          ++ " valid record(s).")%string
    /\ log_text a'
       = log_text a ++ flat_map log_line logs
         ++ [("INFO"%string,
              ("Search Finished. Total rows: " ++ str_of_nat (List.length batch))%string)].
Proof.
  intros Hdone a'.
  destruct (run_api_search_done w store search_type search_field terms Hdone) as [Hq _].
  rewrite app_assoc in Hq.
  set (logs := messages_from w store search_type search_field (List.length terms) 0
                 (firstn (handled w 0 terms) terms)
               ++ (if Nat.ltb (handled w 0 terms) (List.length terms)
                   then [stop_notice] else [])) in Hq.
  set (batch := records_from w store search_type search_field 0
                  (firstn (handled w 0 terms) terms)) in Hq.
  assert (Hlogs : forallb is_log logs = true).
  { subst logs. rewrite forallb_app, messages_from_logs.
    now destruct (Nat.ltb (handled w 0 terms) (List.length terms)). }
  exists logs, batch. split; [exact Hq|].
  subst a'. rewrite Hq. unfold process_api_queue. rewrite fold_left_app.
  destruct (process_api_queue_logs logs a Hlogs)
    as (H1 & _ & _ & _ & _ & _ & _ & _ & H9 & _).
  unfold process_api_queue in H1, H9. simpl.
  rewrite H1, H9, <- app_assoc. repeat split.
Qed.

End QueueProperties.

Lemma crashed_run_leaves_window_searching_witness :
  uncaught (run_api_search array_payload diesel "outbound" "Client ID"
              ["A1"; "A2"]%string) = Some TypeError
  /\ is_searching searching_app = true
  /\ is_searching
       (process_api_queue sample_dumps searching_app
          (queue (run_api_search array_payload diesel "outbound" "Client ID"
                    ["A1"; "A2"]%string))) = true
  /\ search_button
       (process_api_queue sample_dumps searching_app
          (queue (run_api_search array_payload diesel "outbound" "Client ID"
                    ["A1"; "A2"]%string))) = disabled.
Proof.
  split; [reflexivity|]. split; [reflexivity|].
  destruct (crashed_run_leaves_window_searching sample_dumps array_payload diesel
              "outbound" "Client ID" ["A1"; "A2"]%string TypeError searching_app eq_refl)
    as (H1 & H2 & _).
  split; [exact H1 | exact H2].
Defined.

Lemma finished_run_is_delivered_witness :
  uncaught (run_api_search found_then_missing diesel "outbound" "Client ID"
              ["A1"; "A2"]%string) = None
  /\ status_label
       (process_api_queue sample_dumps searching_app
          (queue (run_api_search found_then_missing diesel "outbound" "Client ID"
                    ["A1"; "A2"]%string)))
     = "Search complete. Found 1 valid record(s)."%string
  /\ exists logs batch,
       queue (run_api_search found_then_missing diesel "outbound" "Client ID"
                ["A1"; "A2"]%string) = logs ++ [DoneMsg batch]
       /\ results_data
            (process_api_queue sample_dumps searching_app
               (queue (run_api_search found_then_missing diesel "outbound" "Client ID"
                         ["A1"; "A2"]%string))) = batch.
Proof.
  split; [reflexivity|]. split; [reflexivity|].
  destruct (finished_run_is_delivered sample_dumps found_then_missing diesel
              "outbound" "Client ID" ["A1"; "A2"]%string searching_app eq_refl)
    as (logs & batch & Hq & Hr & _).
  exists logs, batch. split; [exact Hq | exact Hr].
Defined.

(** ** More on the flattener *)

Lemma string_app_assoc (a b c : string) : ((a ++ b) ++ c = a ++ b ++ c)%string.
Proof. induction a as [|x a IH]; simpl; [reflexivity | now rewrite IH]. Qed.

Lemma has_prefix_app (p s : string) : has_prefix p (p ++ s) = true.
Proof.
  unfold has_prefix. induction p as [|c p IH]; simpl; [reflexivity|].
  now rewrite Ascii.eqb_refl.
Qed.

Lemma has_prefix_app_l (p q s : string) :
  has_prefix (p ++ q) s = true -> has_prefix p s = true.
Proof.
  unfold has_prefix. revert s. induction p as [|c p IH]; intros s; simpl;
    [reflexivity|].
  destruct s as [|d s]; [discriminate|].
  destruct (Ascii.eqb c d); [apply IH | discriminate].
Qed.

Lemma join_key_nonempty (pk sep k : string) :
  pk <> ""%string ->
  join_key pk sep k = (pk ++ sep ++ k)%string /\ join_key pk sep k <> ""%string.
Proof.
  intros Hpk. unfold join_key. destruct (String.eqb_spec pk ""); [contradiction|].
  split; [reflexivity|]. destruct pk; [contradiction | discriminate].
Qed.

Section MoreFlattenerProperties.

Variable json_dumps : list value -> string.

Lemma flatten_items_app (d1 d2 : dict) (pk sep : string) :
  flatten_items json_dumps (d1 ++ d2) pk sep
  = flatten_items json_dumps d1 pk sep ++ flatten_items json_dumps d2 pk sep.
Proof.
  induction d1 as [|[k v] rest IH]; simpl; [reflexivity|].
  destruct v; simpl; rewrite IH; try reflexivity. now rewrite app_assoc.
Qed.

(** X17.  A field whose value is an empty mapping leaves no trace in the
    flat record: flattening gives what it gives without that field. *)
Theorem empty_mapping_is_dropped (before after : dict) (k : string) :
  flatten json_dumps (before ++ (k, VDict []) :: after)
  = flatten json_dumps (before ++ after).
Proof.
  unfold flatten. rewrite !_flatten_dict_eq, !flatten_items_app.
  cbn [flatten_items]. rewrite _flatten_dict_eq. reflexivity.
Qed.

Lemma dict_find_dict_of_items (items : list (string * value)) (k : string) :
  dict_find (dict_of_items items) k = dict_find (rev items) k.
Proof.
  induction items as [|[k' v] rest IH] using rev_ind; [reflexivity|].
  unfold dict_of_items in *. rewrite fold_left_app, rev_unit. simpl.
  now rewrite dict_find_dict_set, IH.
Qed.

(** X18.  A flat record has a field exactly when one of the items made
    from the payload has that name, and it then holds the value of the last
    such item: where two paths of the payload give the same joined name,
    the later one wins. *)
Theorem flat_field_is_last_item (d : dict) (k : string) :
  dict_find (flatten json_dumps d) k
  = dict_find (rev (flatten_items json_dumps d "" ".")) k
  /\ (dict_find (flatten json_dumps d) k = None
      <-> ~ In k (keys (flatten_items json_dumps d "" "."))).
Proof.
  unfold flatten. rewrite _flatten_dict_eq. split.
  - apply dict_find_dict_of_items.
  - now rewrite dict_find_None, In_keys_dict_of_items.
Qed.

Lemma flatten_value_prefix :
  forall v pk sep key,
    pk <> ""%string ->
    In key (keys (flatten_value json_dumps v pk sep)) ->
    has_prefix (pk ++ sep) key = true.
Proof.
  fix IH 1. intros v pk sep key Hpk.
  destruct v as [ | | | | | |d]; simpl; try contradiction.
  intros Hin. apply (proj1 (In_keys_dict_of_items _ _)) in Hin. revert Hin.
  induction d as [|[k v'] rest IHd]; simpl; [contradiction|].
  destruct (join_key_nonempty pk sep k Hpk) as [Hjoin Hne].
  pose proof (IH v' (join_key pk sep k) sep key Hne) as Hv'.
  assert (Hhere : has_prefix (pk ++ sep) (join_key pk sep k) = true)
    by (rewrite Hjoin, <- string_app_assoc; apply has_prefix_app).
  destruct v'; simpl;
    try (intros [<-|Hin]; [exact Hhere | now apply IHd]).
  intros Hin. unfold keys in Hin. rewrite map_app in Hin.
  apply in_app_or in Hin as [Hin|Hin]; [|now apply IHd].
  specialize (Hv' Hin). rewrite Hjoin in Hv'.
  assert (E : ((pk ++ sep ++ k) ++ sep = (pk ++ sep) ++ (k ++ sep))%string)
    by now rewrite !string_app_assoc.
  rewrite E in Hv'. now apply has_prefix_app_l with (k ++ sep)%string.
Qed.

(** X19.  Under a parent key that is not empty, every name [_flatten_dict]
    produces starts with the parent key followed by the separator, at any
    depth of nesting. *)
Theorem nested_names_have_parent_prefix (d : dict) (parent_key sep key : string) :
  parent_key <> ""%string ->
  In key (keys (_flatten_dict json_dumps d parent_key sep)) ->
  has_prefix (parent_key ++ sep) key = true.
Proof. apply flatten_value_prefix. Qed.

End MoreFlattenerProperties.

Lemma nested_names_have_parent_prefix_witness :
  "address"%string <> ""%string
  /\ In "address.geo.lat"%string
        (keys (_flatten_dict sample_dumps
                 [("city"%string, VStr "Durban");
                  ("geo"%string, VDict [("lat"%string, VInt 29)])] "address" "."))
  /\ has_prefix ("address" ++ ".") "address.geo.lat" = true.
Proof.
  assert (Hin : In "address.geo.lat"%string
                   (keys (_flatten_dict sample_dumps
                            [("city"%string, VStr "Durban");
                             ("geo"%string, VDict [("lat"%string, VInt 29)])]
                            "address" "."))) by (vm_compute; auto).
  split; [discriminate|]. split; [exact Hin|].
  exact (nested_names_have_parent_prefix sample_dumps _ "address" "." _
           ltac:(discriminate) Hin).
Defined.

(** ** More on the table and the export *)

Lemma In_keys_dict_remove (d : dict) (k k' : string) :
  NoDup (keys d) ->
  (In k' (keys (dict_remove d k)) <-> In k' (keys d) /\ k' <> k).
Proof.
  induction d as [|[k0 v0] rest IH]; simpl; intros Hnd.
  - tauto.
  - inversion Hnd as [|? ? Hk0 Hrest]; subst.
    destruct (String.eqb_spec k0 k) as [->|Hne]; simpl.
    + split.
      * intros Hin. split; [now right|]. intros ->. contradiction.
      * intros [[E|Hin] Hneq]; [congruence | assumption].
    + rewrite IH by assumption. split.
      * intros [<-|[Hin Hneq]]; [split; [now left | assumption] | split; [now right | assumption]].
      * intros [[<-|Hin] Hneq]; [now left | right; now split].
Qed.

Section MoreTableProperties.

Variable json_dumps : list value -> string.

Lemma rename_store_keys (flat : dict) (k : string) :
  NoDup (keys flat) ->
  In k (keys (rename_store flat)) -> k <> "_store_name"%string.
Proof.
  intros Hnd. unfold rename_store.
  destruct (dict_find flat "_store_name") as [v|] eqn:E.
  - rewrite In_keys_dict_set, In_keys_dict_remove by assumption.
    intros [[_ Hne]| ->]; [assumption | discriminate].
  - apply dict_find_None in E. intros Hin ->. contradiction.
Qed.

Lemma flat_results_keys (results : list dict) (record : dict) (k : string) :
  In record (flat_results json_dumps results) -> In k (keys record) ->
  k <> "_store_name"%string.
Proof.
  unfold flat_results. intros Hin. apply in_map_iff in Hin as (r & <- & _).
  apply rename_store_keys. apply NoDup_keys_flatten.
Qed.

(** X20.  The internal tag [_store_name] is never a column of the table nor
    a field of the export header, whatever the batch holds: it is shown
    under 'Store'. *)
Theorem store_tag_is_never_a_column (results : list dict) :
  ~ In "_store_name"%string (columns (update_results_table json_dumps results))
  /\ ~ In "_store_name"%string (all_headers (flat_results json_dumps results)).
Proof.
  assert (H : ~ In "_store_name"%string (all_headers (flat_results json_dumps results))).
  { unfold all_headers. intros [E|Hin]; [discriminate|].
    apply sorted_In, export_header_set_In in Hin as [_ (record & Hr & Hk)].
    now apply (flat_results_keys results record "_store_name" Hr Hk). }
  split; [|exact H].
  unfold update_results_table. destruct results as [|r rest]; [intros []|].
  cbn [columns]. now rewrite sorted_headers_all_headers.
Qed.

(** X21.  The table is aligned: it has one row for each record of the
    batch, every row has one cell for each column, a heading and a width
    are set for each column, each width is at least 100, and every row is
    tagged 'normal' or 'error'. *)
Theorem table_is_aligned (results : list dict) :
  let t := update_results_table json_dumps results in
  List.length (rows t) = List.length results
  /\ Forall (fun row => List.length (fst row) = List.length (columns t)
                        /\ (snd row = "normal"%string \/ snd row = "error"%string))
            (rows t)
  /\ map fst (heading t) = columns t
  /\ map fst (width t) = columns t
  /\ Forall (fun cw => (100 <= snd cw)%Z) (width t).
Proof.
  unfold update_results_table. destruct results as [|r rest].
  - simpl. repeat split; constructor.
  - set (flat := flat_results json_dumps (r :: rest)).
    set (cols := sorted_headers flat). cbn [rows columns heading width].
    split; [subst flat; unfold flat_results; now rewrite !length_map|].
    split.
    { apply Forall_forall. intros row Hin.
      apply in_map_iff in Hin as (record & <- & _). cbn [fst snd].
      split; [unfold row_values; now rewrite length_map|].
      unfold row_tag. destruct (dict_find record "status_error") as [v|]; [|now left].
      destruct (truthy v); [now right | now left]. }
    split; [rewrite map_map; apply map_id|].
    split; [rewrite map_map; apply map_id|].
    apply Forall_forall. intros cw Hin. apply in_map_iff in Hin as (col & <- & _).
    cbn [snd]. unfold column_width. lia.
Qed.

(** X22.  The columns do not depend on the order of the batch: two batches
    with the same records, in any order, give the same column list in the
    table and the same header in the export. *)
Theorem columns_ignore_batch_order (results1 results2 : list dict) :
  Permutation results1 results2 ->
  columns (update_results_table json_dumps results1)
  = columns (update_results_table json_dumps results2)
  /\ all_headers (flat_results json_dumps results1)
     = all_headers (flat_results json_dumps results2).
Proof.
  intros Hperm.
  assert (Hflat : forall record,
            In record (flat_results json_dumps results1)
            <-> In record (flat_results json_dumps results2)).
  { intros record. unfold flat_results. rewrite !in_map_iff.
    split; intros (r & Hr & Hin); exists r; (split; [exact Hr|]).
    - now apply (Permutation_in _ Hperm).
    - now apply (Permutation_in _ (Permutation_sym Hperm)). }
  assert (Hheaders : all_headers (flat_results json_dumps results1)
                     = all_headers (flat_results json_dumps results2)).
  { unfold all_headers. f_equal. apply StronglySorted_unique.
    - apply sorted_StronglySorted, export_header_set_NoDup.
    - apply sorted_StronglySorted, export_header_set_NoDup.
    - intros k. rewrite !sorted_In, !export_header_set_In.
      split; intros [Hne (record & Hr & Hk)]; (split; [exact Hne|]);
        exists record; (split; [now apply Hflat | exact Hk]). }
  split; [|exact Hheaders].
  unfold update_results_table.
  destruct results1 as [|r1 rest1]; destruct results2 as [|r2 rest2].
  - reflexivity.
  - now apply Permutation_nil in Hperm.
  - now apply Permutation_sym, Permutation_nil in Hperm.
  - cbn [columns]. now rewrite !sorted_headers_all_headers.
Qed.

Lemma writerows_flat_results (results : list dict) :
  writerows (all_headers (flat_results json_dumps results))
            (flat_results json_dumps results)
  = (map (row_values (all_headers (flat_results json_dumps results)))
         (flat_results json_dumps results), None).
Proof. apply writerows_all_headers. intros r. apply dict_to_list_all_headers. Qed.

(** X23.  No call of [export_to_csv] changes what the window holds in
    memory: the stored results, the table, the search state, the stop flag,
    the started workers and the state of the export button stay as they
    were, whether the export succeeds, fails on the file, is dismissed or
    has nothing to write. *)
Theorem export_keeps_results (a : app) (chosen : string) (open_error : option string) :
  let a' := fst (export_to_csv json_dumps a chosen open_error) in
  results_data a' = results_data a
  /\ tree a' = tree a
  /\ is_searching a' = is_searching a
  /\ stop_event a' = stop_event a
  /\ threads a' = threads a
  /\ export_button a' = export_button a
  /\ search_term_var a' = search_term_var a.
Proof.
  unfold export_to_csv.
  destruct (results_data a) as [|r rest] eqn:Hres; [simpl; now repeat split|].
  destruct (String.eqb chosen ""); [simpl; now repeat split|].
  destruct open_error as [e|]; [simpl; now repeat split|].
  destruct (writerows (all_headers (flat_results json_dumps (r :: rest)))
                      (flat_results json_dumps (r :: rest))) as [written_rows [e|]];
    simpl; now repeat split.
Qed.

(** X24.  With results stored, an export whose save dialog is dismissed
    leaves everything as it was; one whose file cannot be opened writes no
    file, shows an error dialog that names the cause and logs the same
    text at error level; one that succeeds writes one file, with a row for
    each stored record and a cell for each header field in every row, and
    reports the path in an information dialog and in the log. *)
Theorem export_outcomes (a : app) (chosen cause : string) :
  results_data a <> [] ->
  export_to_csv json_dumps a "" (Some cause) = (a, None)
  /\ export_to_csv json_dumps a "" None = (a, None)
  /\ (chosen <> ""%string ->
      let failed := fst (export_to_csv json_dumps a chosen (Some cause)) in
      let saved := fst (export_to_csv json_dumps a chosen None) in
      files failed = files a
      /\ dialogs failed
         = dialogs a ++ [{| kind := showerror; title := "Export Error";
                            body := ("Could not write to file: " ++ cause)%string |}]
      /\ log_text failed
         = log_text a ++ [("ERROR"%string, ("Could not write to file: " ++ cause)%string)]
      /\ (exists f, files saved = files a ++ [f]
                    /\ path f = chosen
                    /\ List.length (written f) = List.length (results_data a)
                    /\ Forall (fun row => List.length row = List.length (fieldnames f))
                              (written f))
      /\ dialogs saved
         = dialogs a ++ [{| kind := showinfo; title := "Success";
                            body := ("Successfully exported data to:" ++ nl ++ chosen)%string |}]
      /\ log_text saved
         = log_text a ++ [("INFO"%string, ("Data exported to " ++ chosen)%string)]).
Proof.
  intros Hres. unfold export_to_csv.
  destruct (results_data a) as [|r rest] eqn:E; [congruence|].
  split; [reflexivity|]. split; [reflexivity|].
  intros Hchosen. apply String.eqb_neq in Hchosen. rewrite Hchosen.
  rewrite writerows_flat_results. cbn [fst snd].
  split; [reflexivity|]. split; [reflexivity|]. split; [reflexivity|].
  split; [|split; reflexivity].
  eexists. split; [reflexivity|]. cbn [path written fieldnames].
  split; [reflexivity|]. split.
  - unfold flat_results. now rewrite !length_map.
  - apply Forall_forall. intros row Hin. apply in_map_iff in Hin as (record & <- & _).
    unfold row_values. now rewrite length_map.
Qed.

(** X25.  A placeholder in the batch shows in the table as a row tagged
    'error' whose cells, column by column, are the store name under
    'Store', the term under [shipment_id_searched], the reason under
    [status_error], and the empty text elsewhere. *)
Theorem placeholder_row_is_error (results : list dict) (term reason : string)
    (store : Store) :
  In (placeholder term reason store) results ->
  reason <> ""%string ->
  let t := update_results_table json_dumps results in
  In (map (fun col =>
             dict_get [("shipment_id_searched"%string, VStr term);
                       ("status_error"%string, VStr reason);
                       ("Store"%string, VStr (name store))] col (VStr ""))
          (columns t), "error"%string)
     (rows t)
  /\ In "shipment_id_searched"%string (columns t)
  /\ In "status_error"%string (columns t)
  /\ In "Store"%string (columns t).
Proof.
  intros Hin Hreason t.
  assert (Hflat : rename_store (flatten json_dumps (placeholder term reason store))
                  = [("shipment_id_searched"%string, VStr term);
                     ("status_error"%string, VStr reason);
                     ("Store"%string, VStr (name store))]) by reflexivity.
  assert (Hrec : In [("shipment_id_searched"%string, VStr term);
                     ("status_error"%string, VStr reason);
                     ("Store"%string, VStr (name store))]
                    (flat_results json_dumps results)).
  { unfold flat_results. apply in_map_iff. eexists. split; [exact Hflat | exact Hin]. }
  subst t. unfold update_results_table.
  destruct results as [|r rest] eqn:E; [contradiction|]. rewrite <- E in *.
  cbn [columns rows]. split.
  - apply in_map_iff. eexists. split; [|exact Hrec].
    unfold row_values. f_equal. unfold row_tag. simpl.
    apply String.eqb_neq in Hreason. now rewrite Hreason.
  - rewrite sorted_headers_all_headers.
    repeat split;
      (apply (all_headers_In _ _ _ Hrec); simpl; auto).
Qed.

End MoreTableProperties.

Lemma export_outcomes_witness :
  results_data (app_with "" two_records) <> []
  /\ export_to_csv sample_dumps (app_with "" two_records) "" (Some "Permission denied"%string)
     = (app_with "" two_records, None)
  /\ "out.csv"%string <> ""%string
  /\ files (fst (export_to_csv sample_dumps (app_with "" two_records) "out.csv"
                   (Some "Permission denied"%string))) = []
  /\ List.length (files (fst (export_to_csv sample_dumps (app_with "" two_records)
                                "out.csv" None))) = 1.
Proof.
  destruct (export_outcomes sample_dumps (app_with "" two_records) "out.csv"
              "Permission denied" ltac:(discriminate)) as (H1 & _ & H3).
  destruct (H3 ltac:(discriminate)) as (Hfiles & _ & _ & (f & Hf & _) & _).
  split; [discriminate|]. split; [exact H1|]. split; [discriminate|].
  split; [exact Hfiles|]. rewrite Hf. reflexivity.
Defined.

Lemma placeholder_row_is_error_witness :
  In (placeholder "A2" "Not Found" diesel) two_records
  /\ "Not Found"%string <> ""%string
  /\ In ([VStr "Diesel"; VStr ""; VStr "A2"; VStr "Not Found"], "error"%string)
        (rows (update_results_table sample_dumps two_records)).
Proof.
  assert (Hin : In (placeholder "A2" "Not Found" diesel) two_records)
    by (right; left; reflexivity).
  split; [exact Hin|]. split; [discriminate|].
  exact (proj1 (placeholder_row_is_error sample_dumps two_records "A2" "Not Found" diesel
                  Hin ltac:(discriminate))).
Defined.

Lemma columns_ignore_batch_order_witness :
  Permutation two_records (rev two_records)
  /\ columns (update_results_table sample_dumps two_records)
     = columns (update_results_table sample_dumps (rev two_records)).
Proof.
  assert (H : Permutation two_records (rev two_records)) by apply Permutation_rev.
  split; [exact H|].
  exact (proj1 (columns_ignore_batch_order sample_dumps _ _ H)).
Defined.

Lemma search_fields_menu_witness :
  In "Channel ID"%string (search_field_values (search_type_var blank_app))
  /\ api_search_field "Channel ID" <> "search"%string.
Proof.
  assert (H : In "Channel ID"%string (search_field_values (search_type_var blank_app)))
    by (right; left; reflexivity).
  split; [exact H|].
  exact (proj1 (proj2 (proj2 (search_fields_menu blank_app))) "Channel ID"%string H).
Defined.

Lemma flat_field_is_last_item_witness :
  dict_find (flatten sample_dumps
               [("a"%string, VDict [("b"%string, VInt 1)]); ("a.b"%string, VInt 2)])
            "a.b" = Some (VInt 2)
  /\ dict_find (flatten sample_dumps
                  [("a"%string, VDict [("b"%string, VInt 1)]); ("a.b"%string, VInt 2)])
               "a" = None.
Proof.
  split.
  - rewrite (proj1 (flat_field_is_last_item sample_dumps _ "a.b")). reflexivity.
  - apply (proj2 (flat_field_is_last_item sample_dumps _ "a")).
    simpl. intros [H|[H|[]]]; discriminate.
Defined.

Lemma store_tag_is_never_a_column_witness :
  ~ In "_store_name"%string (columns (update_results_table sample_dumps two_records))
  /\ In "Store"%string (columns (update_results_table sample_dumps two_records)).
Proof.
  split.
  - exact (proj1 (store_tag_is_never_a_column sample_dumps two_records)).
  - left. reflexivity.
Defined.
